(** * The SOLID library example (src/solid.py): a shallow embedding

    The Python program keeps a catalogue of books in a list owned by
    [InMemoryLibrary], wraps it in two decorators
    ([LoggingLibraryDecorator], [SortedViewLibrary]) and drives the
    composed object from [LibraryManager], which validates the year typed
    by the user.

    Python objects that are mutated in place (the list of books, the lists
    handed out by [get_books]) live in a heap of list objects addressed by
    locations, so that aliasing between the library's own list and the
    lists it returns can be stated.  Printing appends a line to the
    standard output kept in the same state.  Exceptions are the second
    outcome of a computation. *)

From Stdlib Require Import ZArith Ascii String DecimalString DecimalPos List Permutation Sorted Lia.
From stdpp Require Import gmap strings list sorting.

Local Open Scope Z_scope.

(** ** Strings

    A Python [str] is modelled by a [string] whose characters are the code
    points below 256 (ASCII and the Latin-1 supplement). *)

Module Str.

Definition code (c : ascii) : N := N_of_ascii c.

(** [str.lower()] on this range maps [A]-[Z] and the capital letters
    U+00C0 to U+00DE (the multiplication sign U+00D7 apart) 32 code
    points up and leaves every other character alone. *)
Definition lower_char (c : ascii) : ascii :=
  let n := code c in
  if ((65 <=? n) && (n <=? 90) ||
      (192 <=? n) && (n <=? 222) && negb (n =? 215))%N
  then ascii_of_N (n + 32) else c.

Fixpoint lower (s : string) : string :=
  match s with
  | EmptyString => EmptyString
  | String c s' => String (lower_char c) (lower s')
  end.

(** The characters [int] skips around a number: tab, line feed, vertical
    tab, form feed, carriage return, space, and (turned into spaces
    before parsing) U+0085 and U+00A0. *)
Definition isspace (c : ascii) : bool :=
  let n := code c in
  ((9 <=? n) && (n <=? 13) || (n =? 32) || (n =? 133) || (n =? 160))%N.

Definition digit (c : ascii) : option Z :=
  let n := code c in
  if ((48 <=? n) && (n <=? 57))%N then Some (Z.of_N n - 48) else None.

Fixpoint lstrip (s : string) : string :=
  match s with
  | String c s' => if isspace c then lstrip s' else s
  | EmptyString => EmptyString
  end.

(** The digit loop of the integer parser: digits accumulate in base ten,
    single underscores may separate them, and the scan stops at the first
    other character.  [prev] tells whether the previous character was an
    underscore; a doubled or a trailing underscore is an error ([None]).
    The result carries the value, the number of digits and what is left
    of the text. *)
Fixpoint scan_digits (prev : bool) (acc : Z) (digits : nat) (s : string)
  : option (Z * nat * string) :=
  match s with
  | String c s' =>
      match digit c with
      | Some d => scan_digits false (10 * acc + d) (S digits) s'
      | None =>
          if Ascii.eqb c "_" then
            if prev then None else scan_digits true acc digits s'
          else if prev then None else Some (acc, digits, s)
      end
  | EmptyString => if prev then None else Some (acc, digits, EmptyString)
  end.

(** The interpreter refuses texts of more than [max_str_digits] digits
    (4300 unless configured otherwise; 0 switches the limit off; texts
    of at most 640 digits are never refused). *)
Definition too_many_digits (max_str_digits digits : nat) : bool :=
  ((640 <? digits) && (0 <? max_str_digits) && (max_str_digits <? digits))%nat.

(** [int(value)] for a [str] argument, base ten.  [None] stands for the
    [ValueError] that [int] raises. *)
Definition int (max_str_digits : nat) (value : string) : option Z :=
  let s := lstrip value in
  let '(sign, s) :=
    match s with
    | String c r =>
        if Ascii.eqb c "+" then (1, r)
        else if Ascii.eqb c "-" then (-1, r)
        else (1, s)
    | EmptyString => (1, s)
    end in
  match s with
  | String c _ =>
      if Ascii.eqb c "_" then None
      else
        match scan_digits false 0 0 s with
        | Some (v, digits, rest) =>
            if (digits =? 0)%nat then None
            else if too_many_digits max_str_digits digits then None
            else
              match lstrip rest with
              | EmptyString => Some (sign * v)
              | String _ _ => None
              end
        | None => None
        end
  | EmptyString => None
  end.

(** The characters [str.strip()] removes: the whitespace of [str.isspace],
    which on this range is that of [int] and the four separators U+001C to
    U+001F. *)
Definition is_whitespace (c : ascii) : bool :=
  let n := code c in
  ((9 <=? n) && (n <=? 13) || (28 <=? n) && (n <=? 32) ||
   (n =? 133) || (n =? 160))%N.

Fixpoint lstrip_whitespace (s : string) : string :=
  match s with
  | String c s' => if is_whitespace c then lstrip_whitespace s' else s
  | EmptyString => EmptyString
  end.

Fixpoint rstrip_whitespace (s : string) : string :=
  match s with
  | String c s' =>
      match rstrip_whitespace s' with
      | EmptyString => if is_whitespace c then EmptyString else String c EmptyString
      | r => String c r
      end
  | EmptyString => EmptyString
  end.

(** [s.strip()]. *)
Definition strip (s : string) : string := rstrip_whitespace (lstrip_whitespace s).

(** [str(n)] for an integer [n]: its decimal numeral. *)
Definition of_int (n : Z) : string := NilZero.string_of_int (Z.to_int n).

(** The double quote, as a one-character string. *)
Definition dquote : string := String "034"%char EmptyString.

End Str.

(** ** Books *)

(** [Book] is a frozen dataclass: a plain immutable value. *)
Record Book : Type := mkBook { title : string; author : string; year : Z }.

#[global] Instance Book_eq_dec : EqDecision Book.
Proof. solve_decision. Defined.

#[global] Instance Book_inhabited : Inhabited Book :=
  populate (mkBook EmptyString EmptyString 0).

(** [Book.__str__]. *)
Definition Book_str (self : Book) : string :=
  "Title: " +:+ Str.dquote +:+ title self +:+ Str.dquote +:+
  ", Author: " +:+ author self +:+ ", Year: " +:+ Str.of_int (year self).

(** ** Program state, exceptions and computations *)

Definition loc : Type := positive.

(** The heap holds the Python list objects; [stdout] the lines printed so
    far; [max_str_digits] is the interpreter's limit used by [int]. *)
Record world : Type := World {
  heap : gmap loc (list Book);
  stdout : list string;
  max_str_digits : nat
}.

Inductive exn : Type :=
| ValueError (msg : string)
| IndexError (msg : string).

Inductive outcome (A : Type) : Type :=
| Ret (a : A)
| Raise (e : exn).
Arguments Ret {A} a.
Arguments Raise {A} e.

Definition M (A : Type) : Type := world -> outcome A * world.

Definition ret {A} (a : A) : M A := fun w => (Ret a, w).

Definition raise {A} (e : exn) : M A := fun w => (Raise e, w).

Definition bind {A B} (c : M A) (k : A -> M B) : M B :=
  fun w =>
    match c w with
    | (Ret a, w') => k a w'
    | (Raise e, w') => (Raise e, w')
    end.

Notation "'let!' x := c 'in' k" := (bind c (fun x => k))
  (at level 10, x name, c at level 100, k at level 200).
Notation "c ;;; k" := (bind c (fun _ => k))
  (at level 100, k at level 200, right associativity).

(** [try: c except ValueError as exc: h exc]: only a [ValueError] is
    caught; what [c] did to the state before raising stays done. *)
Definition try_except_ValueError {A} (c : M A) (h : string -> M A) : M A :=
  fun w =>
    match c w with
    | (Raise (ValueError msg), w') => h msg w'
    | r => r
    end.

(** *** Built-in operations on the state *)

(** The content of the list object at [l]. *)
Definition contents (w : world) (l : loc) : list Book := heap w !!! l.

Definition set_contents (l : loc) (bs : list Book) (w : world) : world :=
  World (<[l := bs]> (heap w)) (stdout w) (max_str_digits w).

(** [print(line)]. *)
Definition print (line : string) : M unit :=
  fun w => (Ret tt, World (heap w) (stdout w ++ [line]) (max_str_digits w)).

(** Reading the elements of the list object at [l] (iterating over it). *)
Definition read (l : loc) : M (list Book) := fun w => (Ret (contents w l), w).

(** A new list object holding [bs]. *)
Definition alloc (bs : list Book) : M loc :=
  fun w =>
    let l := fresh (dom (heap w)) in
    (Ret l, set_contents l bs w).

(** [lst.append(book)]. *)
Definition append (l : loc) (book : Book) : M unit :=
  fun w => (Ret tt, set_contents l (contents w l ++ [book]) w).

(** [del lst[idx]] for [idx >= 0]: an index past the end raises. *)
Definition del (l : loc) (idx : nat) : M unit :=
  fun w =>
    if (idx <? length (contents w l))%nat
    then (Ret tt, set_contents l (delete idx (contents w l)) w)
    else (Raise (IndexError "list assignment index out of range"), w).

(** The key of [sorted] in [SortedViewLibrary.get_books]:
    [(b.title.lower(), b.year)], compared as Python compares tuples. *)
Definition sort_key (b : Book) : string * Z := (Str.lower (title b), year b).

Definition key_le (k1 k2 : string * Z) : bool :=
  match String.compare (fst k1) (fst k2) with
  | Lt => true
  | Gt => false
  | Eq => snd k1 <=? snd k2
  end.

(** [sorted(xs, key=...)] is a stable sort: an element is placed before the
    first one whose key is not smaller, so that elements with equal keys
    keep the order they came in. *)
Fixpoint insert_by {A} (key : A -> string * Z) (x : A) (xs : list A) : list A :=
  match xs with
  | [] => [x]
  | y :: ys =>
      if key_le (key x) (key y) then x :: y :: ys
      else y :: insert_by key x ys
  end.

Fixpoint sorted_by {A} (key : A -> string * Z) (xs : list A) : list A :=
  match xs with
  | [] => []
  | x :: xs' => insert_by key x (sorted_by key xs')
  end.

(** ** The library interface and its three implementations

    [LibraryInterface] is the abstract base class; an object of it is an
    [InMemoryLibrary], which owns the list [_books], or one of the two
    decorators around an inner [LibraryInterface].  A method call
    dispatches on the class of the object. *)
Inductive LibraryInterface : Type :=
| InMemoryLibrary (_books : loc)
| LoggingLibraryDecorator (_inner : LibraryInterface)
| SortedViewLibrary (_inner : LibraryInterface).

(** [InMemoryLibrary()]: the constructor makes the empty list. *)
Definition InMemoryLibrary_new : M LibraryInterface :=
  let! l := alloc [] in ret (InMemoryLibrary l).

(** The loop of [InMemoryLibrary.remove_book]: the index of the first book
    whose lower-cased title is [t], counting from [idx]. *)
Fixpoint first_match (t : string) (idx : nat) (books : list Book) : option nat :=
  match books with
  | [] => None
  | b :: rest =>
      if decide (Str.lower (title b) = t) then Some idx
      else first_match t (S idx) rest
  end.

Fixpoint add_book (self : LibraryInterface) (book : Book) : M unit :=
  match self with
  | InMemoryLibrary _books => append _books book
  | LoggingLibraryDecorator _inner =>
      print ("[LOG] add: " +:+ Book_str book) ;;;
      add_book _inner book
  | SortedViewLibrary _inner => add_book _inner book
  end.

Fixpoint remove_book (self : LibraryInterface) (title : string) : M bool :=
  match self with
  | InMemoryLibrary _books =>
      let t := Str.lower title in
      let! books := read _books in
      match first_match t 0 books with
      | Some idx => del _books idx ;;; ret true
      | None => ret false
      end
  | LoggingLibraryDecorator _inner =>
      print ("[LOG] remove: " +:+ Str.dquote +:+ title +:+ Str.dquote) ;;;
      remove_book _inner title
  | SortedViewLibrary _inner => remove_book _inner title
  end.

Fixpoint get_books (self : LibraryInterface) : M loc :=
  match self with
  | InMemoryLibrary _books =>
      let! books := read _books in alloc books
  | LoggingLibraryDecorator _inner => get_books _inner
  | SortedViewLibrary _inner =>
      let! it := get_books _inner in
      let! books := read it in
      alloc (sorted_by sort_key books)
  end.

(** ** The manager *)

Module LibraryManager.

Record t : Type := new { _lib : LibraryInterface }.

Definition year_error : string := "Year must be a positive integer.".

(** [_parse_year]: both the failure of [int] and the explicit
    [ValueError("non-positive")] are caught by the same handler and
    replaced by one error.  The message of the error of [int] goes on with
    the text it refused; the handler drops it, so it is cut short here. *)
Definition _parse_year (value : string) : M Z :=
  try_except_ValueError
    (fun w =>
       match Str.int (max_str_digits w) value with
       | None => raise (ValueError "invalid literal for int() with base 10") w
       | Some year =>
           if year <=? 0 then raise (ValueError "non-positive") w
           else ret year w
       end)
    (fun exc => raise (ValueError year_error)).

Definition add_book (self : t) (title author year_raw : string) : M unit :=
  let! year := _parse_year year_raw in
  add_book (_lib self) (mkBook title author year) ;;;
  print "Book added.".

Definition remove_book (self : t) (title : string) : M unit :=
  let! ok := remove_book (_lib self) title in
  print (if ok then "Book removed." else "Book not found.").

Fixpoint print_all (books : list Book) : M unit :=
  match books with
  | [] => ret tt
  | b :: rest => print (Book_str b) ;;; print_all rest
  end.

Definition show_books (self : t) : M unit :=
  let! it := get_books (_lib self) in
  let! items := read it in
  let! books := alloc items in
  let! bs := read books in
  match bs with
  | [] => print "No books in library."
  | _ => print_all bs
  end.

End LibraryManager.

(** The object graph built by [main]: the manager over the sorted view of
    the logging decorator of a new in-memory library. *)
Definition main_setup : M LibraryManager.t :=
  let! base := InMemoryLibrary_new in
  let with_logging := LoggingLibraryDecorator base in
  let sorted_view := SortedViewLibrary with_logging in
  ret (LibraryManager.new sorted_view).

Definition initial_world : world := World ∅ [] 4300.

(** The scenario of the specification, run on the model. *)
Definition scenario : M (list Book) :=
  let! manager := main_setup in
  LibraryManager.add_book manager "Dune" "Herbert" "1965" ;;;
  LibraryManager.add_book manager "1984" "Orwell" "1949" ;;;
  LibraryManager.remove_book manager "dune" ;;;
  let! it := get_books (LibraryManager._lib manager) in
  read it.

(** ** Sequences of calls

    A client of the interface performs [add_book], [remove_book] and
    [get_books] calls one after the other; what it observes of each call is
    its answer.  For [get_books] that is the list object returned and the
    books found in it. *)
Inductive call : Type :=
| Add (book : Book)
| Remove (title : string)
| List.

Inductive answer : Type :=
| Added
| Removed (ok : bool)
| Listed (it : loc) (books : list Book)
| Raised (e : exn).

Definition perform (lib : LibraryInterface) (c : call) (w : world) : answer * world :=
  match c with
  | Add book =>
      match add_book lib book w with
      | (Ret _, w') => (Added, w')
      | (Raise e, w') => (Raised e, w')
      end
  | Remove title =>
      match remove_book lib title w with
      | (Ret ok, w') => (Removed ok, w')
      | (Raise e, w') => (Raised e, w')
      end
  | List =>
      match get_books lib w with
      | (Ret it, w') => (Listed it (contents w' it), w')
      | (Raise e, w') => (Raised e, w')
      end
  end.

Fixpoint run (lib : LibraryInterface) (calls : list call) (w : world)
  : list answer * world :=
  match calls with
  | [] => ([], w)
  | c :: rest =>
      let '(a, w1) := perform lib c w in
      let '(answers, w2) := run lib rest w1 in
      (a :: answers, w2)
  end.

Definition is_remove (c : call) : bool :=
  match c with Remove _ => true | _ => false end.

(** The books of the [Add] calls of a sequence, in the order of the calls. *)
Fixpoint added (calls : list call) : list Book :=
  match calls with
  | [] => []
  | Add book :: rest => book :: added rest
  | _ :: rest => added rest
  end.

(** ** The command loop

    One turn of the loop of [main] once the command and its arguments have
    been read: the [ValueError] of an [add] is caught and reported, and the
    loop goes on. *)
Inductive command : Type :=
| CmdAdd (title author year : string)
| CmdRemove (title : string)
| CmdShow.

Definition turn (manager : LibraryManager.t) (cmd : command) : M unit :=
  match cmd with
  | CmdAdd title author year =>
      try_except_ValueError
        (LibraryManager.add_book manager title author year)
        (fun exc => print ("Error: " +:+ exc))
  | CmdRemove title => LibraryManager.remove_book manager title
  | CmdShow => LibraryManager.show_books manager
  end.


(** ** Vocabulary of the statements *)

(** The list owned by the in-memory library at the bottom of a chain of
    decorators. *)
Fixpoint base (lib : LibraryInterface) : loc :=
  match lib with
  | InMemoryLibrary _books => _books
  | LoggingLibraryDecorator _inner => base _inner
  | SortedViewLibrary _inner => base _inner
  end.

(** The books held by a library in a state. *)
Definition books_of (lib : LibraryInterface) (w : world) : list Book :=
  contents w (base lib).

(** [b] matches [title] the way [remove_book] compares titles. *)
Definition matches (t : string) (b : Book) : Prop :=
  Str.lower (title b) = Str.lower t.

(** Ascending order of the sort key: by lower-cased title, and by year
    among equal lower-cased titles. *)
Definition book_le (a b : Book) : Prop :=
  String.ltb (Str.lower (title a)) (Str.lower (title b)) = true \/
  (Str.lower (title a) = Str.lower (title b) /\ year a <= year b).

(** A caller changing the list object [it] it was given, in any way. *)
Definition mutate (it : loc) (new_items : list Book) : M unit :=
  fun w => (Ret tt, set_contents it new_items w).

(** The state [w] with [out] as its standard output. *)
Definition with_stdout (out : list string) (w : world) : world :=
  World (heap w) out (max_str_digits w).

(** How a library presents a list of books in [get_books]: as it is, or
    sorted once for every sorted view on the way out. *)
Fixpoint view (lib : LibraryInterface) (books : list Book) : list Book :=
  match lib with
  | InMemoryLibrary _ => books
  | LoggingLibraryDecorator _inner => view _inner books
  | SortedViewLibrary _inner => sorted_by sort_key (view _inner books)
  end.

(** The lines a logging decorator prints for a call. *)
Definition log_lines (c : call) : list string :=
  match c with
  | Add book => ["[LOG] add: " +:+ Book_str book]
  | Remove title => ["[LOG] remove: " +:+ Str.dquote +:+ title +:+ Str.dquote]
  | List => []
  end.

(** The order [sorted] sorts by, for a key function. *)
Definition le_by {A} (key : A -> string * Z) (x y : A) : Prop :=
  key_le (key x) (key y) = true.

(** ** Sample data *)

Definition Dune : Book := mkBook "Dune" "Herbert" 1965.
Definition DUNE : Book := mkBook "DUNE" "Lynch" 1984.
Definition Orwell : Book := mkBook "1984" "Orwell" 1949.

(** An in-memory library whose list is the object at location 1. *)
Definition shelf : LibraryInterface := InMemoryLibrary 1%positive.

(** The chain of [main] over the same list. *)
Definition decorated_shelf : LibraryInterface :=
  SortedViewLibrary (LoggingLibraryDecorator shelf).

(** The text of [n] digits 1. *)
Fixpoint ones (n : nat) : string :=
  match n with
  | O => EmptyString
  | S n' => String "1" (ones n')
  end.

(** A state in which that list holds [books]. *)
Definition shelf_with (books : list Book) : world :=
  World {[ 1%positive := books ]} [] 4300.

(** ** The rest of the program *)

(** *** The loop of [main]

    The standard input is the list of the lines still to be read.
    [input(prompt)] writes the prompt to the standard output (an entry of
    [stdout], with no line end after it) and returns the next line; when
    no line is left it raises [EOFError], which [main] does not catch. *)
Definition prompt (text : string) (w : world) : world :=
  World (heap w) (stdout w ++ [text]) (max_str_digits w).

(** How [main] ends: by the [exit] command, by [EOFError] at the end of the
    input, or by an exception that gets out of a command. *)
Inductive ending : Type :=
| Exited
| EndOfInput
| Crashed (e : exn).

(** The loop; the result is the ending, the lines left unread and the final
    state. *)
Fixpoint main_loop (manager : LibraryManager.t) (stdin : list string) (w : world)
  : ending * list string * world :=
  let w0 := prompt "Enter command (add, remove, show, exit): " w in
  match stdin with
  | [] => (EndOfInput, [], w0)
  | line :: rest =>
      let command := Str.lower (Str.strip line) in
      if decide (command = "add") then
        let w1 := prompt "Enter book title: " w0 in
        match rest with
        | [] => (EndOfInput, [], w1)
        | title :: rest1 =>
            let w2 := prompt "Enter book author: " w1 in
            match rest1 with
            | [] => (EndOfInput, [], w2)
            | author :: rest2 =>
                let w3 := prompt "Enter book year: " w2 in
                match rest2 with
                | [] => (EndOfInput, [], w3)
                | year :: rest3 =>
                    match turn manager
                            (CmdAdd (Str.strip title) (Str.strip author)
                                    (Str.strip year)) w3 with
                    | (Ret _, w4) => main_loop manager rest3 w4
                    | (Raise e, w4) => (Crashed e, rest3, w4)
                    end
                end
            end
        end
      else if decide (command = "remove") then
        let w1 := prompt "Enter book title to remove: " w0 in
        match rest with
        | [] => (EndOfInput, [], w1)
        | title :: rest1 =>
            match turn manager (CmdRemove (Str.strip title)) w1 with
            | (Ret _, w2) => main_loop manager rest1 w2
            | (Raise e, w2) => (Crashed e, rest1, w2)
            end
        end
      else if decide (command = "show") then
        match turn manager CmdShow w0 with
        | (Ret _, w1) => main_loop manager rest w1
        | (Raise e, w1) => (Crashed e, rest, w1)
        end
      else if decide (command = "exit") then (Exited, rest, w0)
      else
        match print "Invalid command. Please try again." w0 with
        | (Ret _, w1) => main_loop manager rest w1
        | (Raise e, w1) => (Crashed e, rest, w1)
        end
  end.

(** [main()]. *)
Definition main (stdin : list string) (w : world) : ending * list string * world :=
  match main_setup w with
  | (Ret manager, w') => main_loop manager stdin w'
  | (Raise e, w') => (Crashed e, stdin, w')
  end.

(** A line that [main] takes for the [exit] command. *)
Definition is_exit (line : string) : Prop :=
  Str.lower (Str.strip line) = "exit"%string.

(** *** More vocabulary *)

(** The number of logging decorators in a chain. *)
Fixpoint loggers (lib : LibraryInterface) : nat :=
  match lib with
  | InMemoryLibrary _ => O
  | LoggingLibraryDecorator _inner => S (loggers _inner)
  | SortedViewLibrary _inner => loggers _inner
  end.

(** The lines the logging decorators of a chain print for a call. *)
Definition logged (lib : LibraryInterface) (c : call) : list string :=
  concat (replicate (loggers lib) (log_lines c)).

#[global] Instance matches_dec (t : string) (b : Book) : Decision (matches t b).
Proof. unfold matches. apply _. Defined.

(** The lines [show_books] prints when the library presents [books]. *)
Definition show_lines (books : list Book) : list string :=
  match books with
  | [] => ["No books in library."]
  | _ => map Book_str books
  end.

(** Every book has a positive year. *)
Definition years_positive (books : list Book) : Prop :=
  Forall (fun b => 0 < year b) books.

(** The list [books] without its first book matching [t], if any: what
    the loop and the [del] of [InMemoryLibrary.remove_book] do together. *)
Definition remove_first (t : string) (books : list Book) : list Book :=
  match first_match (Str.lower t) 0 books with
  | Some idx => delete idx books
  | None => books
  end.

(** Replaying calls on a plain list of books. *)
Definition replay_step (books : list Book) (c : call) : list Book :=
  match c with
  | Add book => books ++ [book]
  | Remove t => remove_first t books
  | List => books
  end.

Definition replay (calls : list call) (books : list Book) : list Book :=
  fold_left replay_step calls books.

(** The answer a call gets from a library that presents its books as [lib]
    does, when the books are [books]. *)
Definition expected (lib : LibraryInterface) (books : list Book) (c : call)
  (a : answer) : Prop :=
  match c, a with
  | Add _, Added => True
  | Remove t, Removed ok => ok = true <-> Exists (matches t) books
  | List, Listed _ shown => shown = view lib books
  | _, _ => False
  end.

Fixpoint all_expected (lib : LibraryInterface) (books : list Book)
  (calls : list call) (answers : list answer) : Prop :=
  match calls, answers with
  | [], [] => True
  | c :: calls', a :: answers' =>
      expected lib books c a /\
      all_expected lib (replay_step books c) calls' answers'
  | _, _ => False
  end.

(** *** The vehicle factories (src/factory_pattern.py)

    The texts of this file are only put together, never inspected, so a
    [str] is given here by the bytes of its UTF-8 encoding. *)
Module Factory.

(** The two concrete classes of the abstract [Vehicle]. *)
Inductive Vehicle : Type :=
| Car (make model : string)
| Motorcycle (make model : string).

Definition make (self : Vehicle) : string :=
  match self with Car mk _ | Motorcycle mk _ => mk end.

Definition model (self : Vehicle) : string :=
  match self with Car _ md | Motorcycle _ md => md end.

Definition start_engine (self : Vehicle) : M unit :=
  match self with
  | Car mk md => print (mk +:+ " " +:+ md +:+ ": Двигун запущено")
  | Motorcycle mk md => print (mk +:+ " " +:+ md +:+ ": Мотор заведено")
  end.

(** The two concrete classes of the abstract [VehicleFactory]. *)
Inductive VehicleFactory : Type :=
| USVehicleFactory
| EUVehicleFactory.

Definition SPEC_SUFFIX (self : VehicleFactory) : string :=
  match self with
  | USVehicleFactory => "(US Spec)"
  | EUVehicleFactory => "(EU Spec)"
  end.

Definition create_car (self : VehicleFactory) (make model : string) : Vehicle :=
  Car make (model +:+ " " +:+ SPEC_SUFFIX self).

Definition create_motorcycle (self : VehicleFactory) (make model : string) : Vehicle :=
  Motorcycle make (model +:+ " " +:+ SPEC_SUFFIX self).

(** The script run when the file is executed. *)
Definition script : M unit :=
  let us_factory := USVehicleFactory in
  let eu_factory := EUVehicleFactory in
  let us_car := create_car us_factory "Ford" "Mustang" in
  start_engine us_car ;;;
  let eu_bike := create_motorcycle eu_factory "Yamaha" "MT-07" in
  start_engine eu_bike ;;;
  let eu_car := create_car eu_factory "Toyota" "Corolla" in
  start_engine eu_car.

End Factory.

(** What a user of [main] might type, line by line. *)
Definition session : list string :=
  ["add"; " Dune "; "Herbert"; "1965";
   "ADD"; "Emma"; "Austen"; "abc";
   " Show "; "bogus"; "remove"; "DUNE"; "show"; " EXIT "; "ignored"].

(** * The model at work *)

Example lower_Dune : Str.lower "Dune" = "dune" /\ Str.lower "DUNE" = "dune".
Proof. split; reflexivity. Qed.

Example int_samples :
  Str.int 4300 "1999" = Some 1999 /\ Str.int 4300 "0" = Some 0 /\
  Str.int 4300 "-3" = Some (-3) /\ Str.int 4300 "abc" = None /\
  Str.int 4300 " +1_000 " = Some 1000 /\ Str.int 4300 "1__0" = None /\
  Str.int 4300 "_1" = None /\ Str.int 4300 "1_" = None /\
  Str.int 4300 "+ 1" = None /\ Str.int 4300 "-" = None /\
  Str.int 4300 "1 2" = None /\ Str.int 4300 "00012" = Some 12.
Proof. repeat split; reflexivity. Qed.

Example int_latin1_space :
  Str.int 4300 (String "160" "1") = Some 1 /\
  Str.int 4300 (String "133" "1") = Some 1 /\
  Str.int 4300 (String "028" "1") = None /\
  Str.int 4300 (String "178" EmptyString) = None.
Proof. repeat split; reflexivity. Qed.

Example int_digit_limit :
  Str.int 4300 (ones 4300) <> None /\ Str.int 4300 (ones 4301) = None /\
  Str.int 0 (ones 4301) <> None.
Proof. repeat split; vm_compute; congruence. Qed.

Example lower_latin1 :
  Str.lower (String "192" (String "215" (String "223" "Z"))) =
  String "224" (String "215" (String "223" "z")).
Proof. reflexivity. Qed.

Example of_int_samples :
  Str.of_int 1965 = "1965"%string /\ Str.of_int 0 = "0"%string /\
  Str.of_int (-3) = "-3"%string.
Proof. repeat split; reflexivity. Qed.

Example scenario_result :
  fst (scenario initial_world) = Ret [mkBook "1984" "Orwell" 1949].
Proof. vm_compute. reflexivity. Qed.

Example scenario_stdout :
  stdout (snd (scenario initial_world)) =
  [ "[LOG] add: Title: " +:+ Str.dquote +:+ "Dune" +:+ Str.dquote +:+ ", Author: Herbert, Year: 1965";
    "Book added.";
    "[LOG] add: Title: " +:+ Str.dquote +:+ "1984" +:+ Str.dquote +:+ ", Author: Orwell, Year: 1949";
    "Book added.";
    "[LOG] remove: " +:+ Str.dquote +:+ "dune" +:+ Str.dquote;
    "Book removed." ].
Proof. vm_compute. reflexivity. Qed.

(** * Facts about the model *)

(** ** The order of sort keys *)

Section KeyOrder.

Lemma ascii_compare_refl (c : ascii) : Ascii.compare c c = Eq.
Proof. unfold Ascii.compare. apply N.compare_refl. Qed.

Lemma ascii_compare_lt_trans (a b c : ascii) :
  Ascii.compare a b = Lt -> Ascii.compare b c = Lt -> Ascii.compare a c = Lt.
Proof.
  unfold Ascii.compare. rewrite !N.compare_lt_iff. lia.
Qed.

Lemma compare_refl (s : string) : String.compare s s = Eq.
Proof.
  induction s as [|c s IH]; simpl; [reflexivity|].
  now rewrite ascii_compare_refl.
Qed.

Lemma compare_eq (s1 s2 : string) : String.compare s1 s2 = Eq <-> s1 = s2.
Proof.
  split; [apply String.compare_eq_iff|].
  intros ->. apply compare_refl.
Qed.

Lemma compare_lt_trans (s1 s2 s3 : string) :
  String.compare s1 s2 = Lt -> String.compare s2 s3 = Lt ->
  String.compare s1 s3 = Lt.
Proof.
  revert s2 s3.
  induction s1 as [|a s1 IH]; intros [|b s2] [|c s3]; simpl; try congruence.
  destruct (Ascii.compare a b) eqn:Hab; try discriminate;
    destruct (Ascii.compare b c) eqn:Hbc; try discriminate; intros H1 H2.
  - apply Ascii.compare_eq_iff in Hab, Hbc. subst.
    rewrite ascii_compare_refl. eauto.
  - apply Ascii.compare_eq_iff in Hab. subst. now rewrite Hbc.
  - apply Ascii.compare_eq_iff in Hbc. subst. now rewrite Hab.
  - now rewrite (ascii_compare_lt_trans a b c).
Qed.


Lemma key_le_total (k1 k2 : string * Z) :
  key_le k1 k2 = false -> key_le k2 k1 = true.
Proof.
  unfold key_le. rewrite (String.compare_antisym (fst k2) (fst k1)).
  destruct (String.compare (fst k1) (fst k2)); simpl; try congruence.
  rewrite Z.leb_gt. intros H. apply Z.leb_le. lia.
Qed.

Lemma key_le_trans (k1 k2 k3 : string * Z) :
  key_le k1 k2 = true -> key_le k2 k3 = true -> key_le k1 k3 = true.
Proof.
  unfold key_le.
  destruct (String.compare (fst k1) (fst k2)) eqn:H12; try discriminate;
    destruct (String.compare (fst k2) (fst k3)) eqn:H23; try discriminate.
  - apply compare_eq in H12, H23. rewrite H12, H23, compare_refl.
    rewrite !Z.leb_le. lia.
  - apply compare_eq in H12. rewrite H12, H23. reflexivity.
  - apply compare_eq in H23. rewrite <- H23, H12. reflexivity.
  - rewrite (compare_lt_trans _ _ _ H12 H23). reflexivity.
Qed.

(** The boolean comparison of keys is the order [book_le]. *)
Lemma key_le_book_le (a b : Book) :
  key_le (sort_key a) (sort_key b) = true <-> book_le a b.
Proof.
  unfold key_le, book_le, sort_key, String.ltb. simpl.
  destruct (String.compare (Str.lower (title a)) (Str.lower (title b))) eqn:H.
  - apply compare_eq in H. rewrite Z.leb_le. split.
    + intros Hy. right. split; assumption.
    + intros [Hlt | [_ Hy]]; [discriminate | assumption].
  - split; [intros _; left; reflexivity | reflexivity].
  - split; [discriminate|].
    intros [Hlt | [He _]]; [discriminate|].
    apply compare_eq in He. congruence.
Qed.

End KeyOrder.

(** ** [sorted] *)

Section Sorting.

Context {A : Type} (key : A -> string * Z).

Lemma insert_by_perm (x : A) (xs : list A) :
  Permutation (insert_by key x xs) (x :: xs).
Proof.
  induction xs as [|y ys IH]; simpl; [reflexivity|].
  destruct (key_le (key x) (key y)); [reflexivity|].
  rewrite IH. apply perm_swap.
Qed.

Lemma sorted_by_perm (xs : list A) : Permutation (sorted_by key xs) xs.
Proof.
  induction xs as [|x xs IH]; simpl; [reflexivity|].
  rewrite insert_by_perm. now apply perm_skip.
Qed.

Lemma insert_by_sorted (x : A) (xs : list A) :
  StronglySorted (le_by key) xs -> StronglySorted (le_by key) (insert_by key x xs).
Proof.
  induction 1 as [|y ys Hs IH Hall]; simpl.
  - repeat constructor.
  - destruct (key_le (key x) (key y)) eqn:Hxy.
    + constructor; [constructor; assumption|].
      constructor; [exact Hxy|].
      eapply Forall_impl; [exact Hall|].
      intros z Hz. exact (key_le_trans _ _ _ Hxy Hz).
    + constructor; [exact IH|].
      rewrite (insert_by_perm x ys).
      constructor; [apply key_le_total, Hxy | exact Hall].
Qed.

Lemma sorted_by_sorted (xs : list A) : StronglySorted (le_by key) (sorted_by key xs).
Proof.
  induction xs as [|x xs IH]; simpl; [constructor|].
  now apply insert_by_sorted.
Qed.

(** Stability: the elements that share a key come out in the order they
    went in. *)
Lemma insert_by_filter (k : string * Z) (x : A) (xs : list A) :
  StronglySorted (le_by key) xs ->
  List.filter (fun y => bool_decide (key y = k)) (insert_by key x xs) =
  List.filter (fun y => bool_decide (key y = k)) (x :: xs).
Proof.
  induction 1 as [|y ys Hs IH Hall]; [reflexivity|].
  cbn [insert_by]. destruct (key_le (key x) (key y)) eqn:Hxy; [reflexivity|].
  cbn [List.filter] in *. rewrite IH.
  destruct (bool_decide (key x = k)) eqn:Hx, (bool_decide (key y = k)) eqn:Hy;
    try reflexivity.
  apply bool_decide_eq_true in Hx, Hy.
  rewrite Hx, Hy in Hxy.
  assert (key_le k k = true) as Hkk; [|congruence].
  unfold key_le. rewrite compare_refl. apply Z.leb_refl.
Qed.

Lemma sorted_by_stable (k : string * Z) (xs : list A) :
  List.filter (fun y => bool_decide (key y = k)) (sorted_by key xs) =
  List.filter (fun y => bool_decide (key y = k)) xs.
Proof.
  induction xs as [|x xs IH]; [reflexivity|].
  cbn [sorted_by]. rewrite insert_by_filter by apply sorted_by_sorted.
  cbn [List.filter]. now rewrite IH.
Qed.

End Sorting.

(** ** The heap of list objects *)

Section Heap.

Implicit Types (w : world) (l it : loc) (bs : list Book).

Lemma contents_set_eq l bs w : contents (set_contents l bs w) l = bs.
Proof. unfold contents, set_contents; simpl. apply lookup_total_insert_eq. Qed.

Lemma contents_set_ne l l' bs w :
  l ≠ l' -> contents (set_contents l bs w) l' = contents w l'.
Proof.
  intros Hne. unfold contents, set_contents; simpl.
  now apply lookup_total_insert_ne.
Qed.

Lemma contents_with_stdout out w l : contents (with_stdout out w) l = contents w l.
Proof. reflexivity. Qed.

Lemma fresh_unallocated w : fresh (dom (heap w)) ∉ dom (heap w).
Proof. apply is_fresh. Qed.

Lemma fresh_lookup w : heap w !! fresh (dom (heap w)) = None.
Proof. apply not_elem_of_dom, fresh_unallocated. Qed.

Lemma contents_weaken w w' l :
  heap w ⊆ heap w' -> l ∈ dom (heap w) -> contents w' l = contents w l.
Proof.
  intros Hsub [bs Hbs]%elem_of_dom. unfold contents.
  rewrite (lookup_total_correct _ _ _ Hbs).
  apply lookup_total_correct. eapply lookup_weaken; eassumption.
Qed.

Lemma heap_set_contents l bs w : heap (set_contents l bs w) = <[l := bs]> (heap w).
Proof. reflexivity. Qed.

Lemma world_eta w : World (heap w) (stdout w) (max_str_digits w) = w.
Proof. now destruct w. Qed.


Lemma with_stdout_id w : with_stdout (stdout w) w = w.
Proof. apply world_eta. Qed.

End Heap.

(** ** The loop of [remove_book] *)

Section FirstMatch.

Implicit Types (t : string) (b : Book) (bs pre rest : list Book).

Lemma first_match_miss t i bs :
  Forall (fun b => Str.lower (title b) ≠ t) bs -> first_match t i bs = None.
Proof.
  intros H. revert i. induction H as [|b bs Hb _ IH]; intros i; simpl.
  - reflexivity.
  - destruct (decide (Str.lower (title b) = t)); [contradiction | apply IH].
Qed.

Lemma first_match_hit t i pre b rest :
  Forall (fun b => Str.lower (title b) ≠ t) pre ->
  Str.lower (title b) = t ->
  first_match t i (pre ++ b :: rest) = Some (i + length pre)%nat.
Proof.
  intros H Hb. revert i. induction H as [|x pre Hx _ IH]; intros i; simpl.
  - destruct (decide (Str.lower (title b) = t)); [|contradiction].
    f_equal. lia.
  - destruct (decide (Str.lower (title x) = t)); [contradiction|].
    rewrite IH. f_equal. lia.
Qed.

(** Either no book matches, or the list splits at its first match. *)
Lemma first_match_cases t bs :
  Forall (fun b => Str.lower (title b) ≠ t) bs \/
  exists pre b rest,
    bs = pre ++ b :: rest /\
    Forall (fun b => Str.lower (title b) ≠ t) pre /\
    Str.lower (title b) = t.
Proof.
  induction bs as [|x bs IH].
  - left. constructor.
  - destruct (decide (Str.lower (title x) = t)) as [Hx | Hx].
    + right. exists [], x, bs. repeat split; [constructor | exact Hx].
    + destruct IH as [IH | (pre & b & rest & -> & Hpre & Hb)].
      * left. now constructor.
      * right. exists (x :: pre), b, rest.
        repeat split; [now constructor | exact Hb].
Qed.

End FirstMatch.

(** ** What each method does to the state, for any chain of decorators *)

Section Chain.

Implicit Types (lib : LibraryInterface) (w : world) (b : Book) (t : string).

Lemma add_book_chain lib b w :
  exists out,
    add_book lib b w =
    (Ret tt, with_stdout (stdout w ++ out)
               (set_contents (base lib) (books_of lib w ++ [b]) w)).
Proof.
  revert w. induction lib as [l | inner IH | inner IH]; intros w.
  - exists []. cbn. unfold append, with_stdout, set_contents; simpl.
    now rewrite app_nil_r.
  - cbn [add_book]. unfold bind, print.
    destruct (IH (World (heap w) (stdout w ++ ["[LOG] add: " +:+ Book_str b])
                        (max_str_digits w))) as [out Hout].
    rewrite Hout. exists (("[LOG] add: " +:+ Book_str b) :: out).
    unfold with_stdout, set_contents, books_of, contents; simpl.
    now rewrite <- app_assoc.
  - exact (IH w).
Qed.

Lemma remove_book_miss lib t w :
  Forall (fun b => ~ matches t b) (books_of lib w) ->
  exists out,
    remove_book lib t w = (Ret false, with_stdout (stdout w ++ out) w).
Proof.
  revert w. induction lib as [l | inner IH | inner IH]; intros w Hmiss.
  - exists []. cbn [remove_book]. unfold bind, read.
    rewrite first_match_miss by exact Hmiss.
    unfold ret, with_stdout. now rewrite app_nil_r, world_eta.
  - cbn [remove_book]. unfold bind at 1. unfold print.
    set (line := "[LOG] remove: " +:+ Str.dquote +:+ t +:+ Str.dquote).
    destruct (IH (World (heap w) (stdout w ++ [line]) (max_str_digits w)))
      as [out Hout]; [exact Hmiss|].
    rewrite Hout. exists (line :: out).
    unfold with_stdout; simpl. now rewrite <- app_assoc.
  - exact (IH w Hmiss).
Qed.

Lemma remove_book_hit lib t w pre b rest :
  books_of lib w = pre ++ b :: rest ->
  Forall (fun b => ~ matches t b) pre ->
  matches t b ->
  exists out,
    remove_book lib t w =
    (Ret true, with_stdout (stdout w ++ out)
                 (set_contents (base lib) (pre ++ rest) w)).
Proof.
  revert w. induction lib as [l | inner IH | inner IH]; intros w Hbs Hpre Hb.
  - exists []. cbn [remove_book]. unfold bind, read.
    change (contents w l = pre ++ b :: rest) in Hbs. rewrite Hbs.
    rewrite (first_match_hit _ 0 pre b rest Hpre Hb). cbn [Nat.add].
    unfold del. rewrite Hbs.
    assert ((length pre <? length (pre ++ b :: rest))%nat = true) as ->.
    { apply Nat.ltb_lt. rewrite length_app. simpl. lia. }
    rewrite delete_middle. unfold ret, with_stdout, set_contents; simpl.
    now rewrite app_nil_r.
  - cbn [remove_book]. unfold bind at 1. unfold print.
    set (line := "[LOG] remove: " +:+ Str.dquote +:+ t +:+ Str.dquote).
    destruct (IH (World (heap w) (stdout w ++ [line]) (max_str_digits w)))
      as [out Hout]; [exact Hbs | exact Hpre | exact Hb |].
    rewrite Hout. exists (line :: out).
    unfold with_stdout, set_contents; simpl. now rewrite <- app_assoc.
  - exact (IH w Hbs Hpre Hb).
Qed.

Lemma get_books_chain lib w :
  exists it w',
    get_books lib w = (Ret it, w') /\
    (it ∉ dom (heap w)) /\ (it ∈ dom (heap w')) /\
    heap w ⊆ heap w' /\
    stdout w' = stdout w /\ max_str_digits w' = max_str_digits w /\
    contents w' it = view lib (books_of lib w).
Proof.
  revert w. induction lib as [l | inner IH | inner IH]; intros w.
  - cbn [get_books]. unfold bind, read, alloc.
    eexists _, _. split; [reflexivity|].
    pose proof (fresh_unallocated w) as Hf.
    repeat split.
    + exact Hf.
    + rewrite heap_set_contents, dom_insert_L. set_solver.
    + rewrite heap_set_contents. apply insert_subseteq, fresh_lookup.
    + apply contents_set_eq.
  - exact (IH w).
  - destruct (IH w) as (it & w1 & Hget & Hnew & Hin & Hsub & Hout & Hmax & Hc).
    cbn [get_books]. unfold bind at 1. rewrite Hget.
    unfold bind, read, alloc.
    eexists _, _. split; [reflexivity|].
    pose proof (fresh_unallocated w1) as Hf.
    repeat split.
    + intros Hbad. apply Hf. eapply subseteq_dom; eassumption.
    + rewrite heap_set_contents, dom_insert_L. set_solver.
    + rewrite heap_set_contents. etransitivity; [exact Hsub|].
      apply insert_subseteq, fresh_lookup.
    + exact Hout.
    + exact Hmax.
    + rewrite contents_set_eq, Hc. reflexivity.
Qed.

End Chain.

(** ** The in-memory library itself *)

Section InMemory.

Implicit Types (l it : loc) (w : world) (b : Book) (t : string).

Lemma add_book_mem l b w :
  add_book (InMemoryLibrary l) b w =
  (Ret tt, set_contents l (contents w l ++ [b]) w).
Proof. reflexivity. Qed.

Lemma remove_book_mem_miss l t w :
  Forall (fun b => ~ matches t b) (contents w l) ->
  remove_book (InMemoryLibrary l) t w = (Ret false, w).
Proof.
  intros Hmiss. cbn [remove_book]. unfold bind, read.
  now rewrite first_match_miss by exact Hmiss.
Qed.

Lemma remove_book_mem_hit l t w pre b rest :
  contents w l = pre ++ b :: rest ->
  Forall (fun b => ~ matches t b) pre ->
  matches t b ->
  remove_book (InMemoryLibrary l) t w =
  (Ret true, set_contents l (pre ++ rest) w).
Proof.
  intros Hbs Hpre Hb. cbn [remove_book]. unfold bind, read. rewrite Hbs.
  rewrite (first_match_hit _ 0 pre b rest Hpre Hb). cbn [Nat.add].
  unfold del. rewrite Hbs.
  assert ((length pre <? length (pre ++ b :: rest))%nat = true) as ->.
  { apply Nat.ltb_lt. rewrite length_app. simpl. lia. }
  now rewrite delete_middle.
Qed.

Lemma get_books_mem l w :
  get_books (InMemoryLibrary l) w =
  (Ret (fresh (dom (heap w))),
   set_contents (fresh (dom (heap w))) (contents w l) w).
Proof. reflexivity. Qed.

(** Listing leaves the library's own list as it is, wherever the copy
    goes. *)
Lemma get_books_mem_keeps l w :
  contents (snd (get_books (InMemoryLibrary l) w)) l = contents w l.
Proof.
  rewrite get_books_mem. cbn [snd].
  destruct (decide (fresh (dom (heap w)) = l)) as [-> | Hne].
  - apply contents_set_eq.
  - now apply contents_set_ne.
Qed.

End InMemory.

Lemma view_perm (lib : LibraryInterface) (bs : list Book) :
  Permutation (view lib bs) bs.
Proof.
  induction lib as [l | inner IH | inner IH]; simpl.
  - reflexivity.
  - exact IH.
  - rewrite sorted_by_perm. exact IH.
Qed.

Lemma StronglySorted_book_le (bs : list Book) :
  StronglySorted (le_by sort_key) bs -> StronglySorted book_le bs.
Proof.
  induction 1 as [|b bs _ IH Hall]; constructor.
  - exact IH.
  - eapply Forall_impl; [exact Hall|].
    intros x Hx. now apply key_le_book_le.
Qed.

(** * The claims *)

(** C5: [remove_book] never raises.  For every library (the in-memory one,
    alone or under any decorators), every title and every state it returns
    normally with a boolean, which is [true] exactly when some stored book
    matches the title case-insensitively and [false] exactly when none
    does. *)
Theorem remove_book_never_raises (lib : LibraryInterface) (t : string) (w : world) :
  exists ok w',
    remove_book lib t w = (Ret ok, w') /\
    (ok = true <-> Exists (matches t) (books_of lib w)) /\
    (ok = false <-> Forall (fun b => ~ matches t b) (books_of lib w)).
Proof.
  destruct (first_match_cases (Str.lower t) (books_of lib w))
    as [Hmiss | (pre & b & rest & Hbs & Hpre & Hb)].
  - destruct (remove_book_miss lib t w Hmiss) as [out Hout].
    exists false, (with_stdout (stdout w ++ out) w).
    split; [exact Hout|]. split.
    + split; [discriminate|].
      intros Hex. apply Exists_exists in Hex as (x & Hin & Hx).
      rewrite Forall_forall in Hmiss. now destruct (Hmiss x Hin).
    + split; [intros _; exact Hmiss | reflexivity].
  - destruct (remove_book_hit lib t w pre b rest Hbs Hpre Hb) as [out Hout].
    eexists true, _. split; [exact Hout|]. split.
    + split; [|reflexivity]. intros _. rewrite Hbs.
      apply Exists_app. right. now constructor.
    + split; [discriminate|].
      rewrite Hbs. intros Hall. apply Forall_app in Hall as [_ Hall].
      inversion Hall as [|? ? Hnb _]. now destruct Hnb.
Qed.

(** C10: the frame of [remove_book] on the in-memory library.  The call
    returns a boolean.  When it is [false] the whole state, and so the list
    of books, is what it was.  When it is [true] the list was
    [pre ++ b :: rest] with [b] its first case-insensitive match, and it
    becomes [pre ++ rest]: that one book is gone and the others keep their
    order; nothing else in the state changes. *)
Theorem remove_book_frame (l : loc) (t : string) (w : world) :
  exists ok w',
    remove_book (InMemoryLibrary l) t w = (Ret ok, w') /\
    (ok = false -> w' = w) /\
    (ok = true ->
     exists pre b rest,
       contents w l = pre ++ b :: rest /\
       Forall (fun x => ~ matches t x) pre /\
       matches t b /\
       contents w' l = pre ++ rest /\
       w' = set_contents l (pre ++ rest) w).
Proof.
  destruct (first_match_cases (Str.lower t) (contents w l))
    as [Hmiss | (pre & b & rest & Hbs & Hpre & Hb)].
  - exists false, w. split; [now apply remove_book_mem_miss|].
    split; [reflexivity | discriminate].
  - exists true, (set_contents l (pre ++ rest) w).
    split; [now apply (remove_book_mem_hit l t w pre b rest)|].
    split; [discriminate|]. intros _.
    exists pre, b, rest. repeat split; try assumption.
    apply contents_set_eq.
Qed.

(** C2: first-match removal.  Let the books of a library be
    [pre ++ b :: rest], where no book of [pre] matches the title asked for
    and [b] does, both compared lower-cased, so that [b] is the earliest
    inserted match; [rest] may hold more matches.  Then one [remove_book]
    returns [true] and leaves [pre ++ rest], and the [get_books] that
    follows presents exactly those books, so every later-inserted book,
    matching or not, is still listed. *)
Theorem remove_book_first_match
  (lib : LibraryInterface) (t : string) (w : world)
  (pre : list Book) (b : Book) (rest : list Book) :
  books_of lib w = pre ++ b :: rest ->
  Forall (fun x => ~ matches t x) pre ->
  matches t b ->
  exists w1,
    remove_book lib t w = (Ret true, w1) /\
    books_of lib w1 = pre ++ rest /\
    exists it w2,
      get_books lib w1 = (Ret it, w2) /\
      contents w2 it = view lib (pre ++ rest) /\
      Permutation (contents w2 it) (pre ++ rest) /\
      (forall later, later ∈ rest -> later ∈ contents w2 it).
Proof.
  intros Hbs Hpre Hb.
  destruct (remove_book_hit lib t w pre b rest Hbs Hpre Hb) as [out Hout].
  eexists. split; [exact Hout|].
  assert (books_of lib (with_stdout (stdout w ++ out)
            (set_contents (base lib) (pre ++ rest) w)) = pre ++ rest) as Hafter.
  { unfold books_of. rewrite contents_with_stdout. apply contents_set_eq. }
  split; [exact Hafter|].
  destruct (get_books_chain lib (with_stdout (stdout w ++ out)
              (set_contents (base lib) (pre ++ rest) w)))
    as (it & w2 & Hget & _ & _ & _ & _ & _ & Hc).
  exists it, w2. split; [exact Hget|].
  rewrite Hafter in Hc. split; [exact Hc|].
  assert (Permutation (contents w2 it) (pre ++ rest)) as Hperm.
  { rewrite Hc. apply view_perm. }
  split; [exact Hperm|].
  intros later Hin. rewrite Hperm. apply elem_of_app. now right.
Qed.

Lemma remove_book_first_match_witness :
  exists w1,
    remove_book shelf "dune" (shelf_with [Dune; DUNE]) = (Ret true, w1) /\
    books_of shelf w1 = [] ++ [DUNE] /\
    exists it w2,
      get_books shelf w1 = (Ret it, w2) /\
      contents w2 it = view shelf ([] ++ [DUNE]) /\
      Permutation (contents w2 it) ([] ++ [DUNE]) /\
      (forall later, later ∈ [DUNE] -> later ∈ contents w2 it).
Proof.
  apply (remove_book_first_match shelf "dune" (shelf_with [Dune; DUNE])
           [] Dune [DUNE]).
  - reflexivity.
  - constructor.
  - reflexivity.
Defined.

(** C6: order preservation.  Run on an in-memory library any sequence of
    calls none of which is a [remove_book], from any state.  Each
    [add_book] appends its book at the end, and at the end of the run the
    library's list, and the list a [get_books] returns, is the initial list
    followed by the added books in the order of the calls, duplicates
    included. *)
Theorem get_books_insertion_order (l : loc) (calls : list call) (w : world) :
  forallb (fun c => negb (is_remove c)) calls = true ->
  (forall b w0,
     contents (snd (add_book (InMemoryLibrary l) b w0)) l = contents w0 l ++ [b]) /\
  contents (snd (run (InMemoryLibrary l) calls w)) l = contents w l ++ added calls /\
  exists it w2,
    get_books (InMemoryLibrary l) (snd (run (InMemoryLibrary l) calls w)) = (Ret it, w2) /\
    contents w2 it = contents w l ++ added calls.
Proof.
  intros Hcalls.
  assert (forall b w0,
            contents (snd (add_book (InMemoryLibrary l) b w0)) l =
            contents w0 l ++ [b]) as Hadd.
  { intros b w0. rewrite add_book_mem. apply contents_set_eq. }
  split; [exact Hadd|].
  assert (contents (snd (run (InMemoryLibrary l) calls w)) l =
          contents w l ++ added calls) as Hrun.
  { revert w. induction calls as [|c calls IH]; intros w.
    - simpl. now rewrite app_nil_r.
    - cbn [forallb] in Hcalls. apply andb_prop in Hcalls as [Hc Hrest].
      cbn [run].
      destruct (perform (InMemoryLibrary l) c w) as [a w1] eqn:Hp.
      specialize (IH Hrest w1).
      destruct (run (InMemoryLibrary l) calls w1) as [answers w2] eqn:Hr.
      cbn [snd] in *. rewrite IH.
      destruct c as [b | t | ]; [| discriminate |].
      + cbn [perform] in Hp. rewrite add_book_mem in Hp.
        injection Hp as _ <-. rewrite contents_set_eq.
        cbn [added]. now rewrite <- app_assoc.
      + cbn [perform] in Hp. rewrite get_books_mem in Hp.
        injection Hp as _ <-. cbn [added].
        pose proof (get_books_mem_keeps l w) as Hk.
        rewrite get_books_mem in Hk. cbn [snd] in Hk. now rewrite Hk. }
  split; [exact Hrun|].
  rewrite get_books_mem. eexists _, _. split; [reflexivity|].
  rewrite contents_set_eq. exact Hrun.
Qed.

Lemma get_books_insertion_order_witness :
  contents (snd (run shelf [Add Dune; List; Add Orwell; Add Dune] (shelf_with [DUNE])))
           1%positive
  = [DUNE; Dune; Orwell; Dune].
Proof.
  exact (proj1 (proj2 (get_books_insertion_order 1%positive
                         [Add Dune; List; Add Orwell; Add Dune]
                         (shelf_with [DUNE]) eq_refl))).
Defined.

(** ** The logging decorator against the plain library *)

Section Logging.

Implicit Types (l : loc) (w : world) (c : call).






End Logging.


(** C3: transparency of the sorted view.  For every library [inner] and
    every state in which its list exists: [add_book] and [remove_book] on
    the sorted view are the calls on [inner] itself, with the same result
    and the same state after; [get_books] returns a new list holding the
    books of the list [inner] returns, rearranged in ascending order of
    lower-cased title and, among equal lower-cased titles, of year; the
    list returned by [inner] and the list [inner] stores are left as they
    were. *)
Theorem sorted_view_transparent (inner : LibraryInterface) (w : world) :
  base inner ∈ dom (heap w) ->
  (forall b, add_book (SortedViewLibrary inner) b w = add_book inner b w) /\
  (forall t, remove_book (SortedViewLibrary inner) t w = remove_book inner t w) /\
  exists it w1 it' w2,
    get_books inner w = (Ret it, w1) /\
    get_books (SortedViewLibrary inner) w = (Ret it', w2) /\
    Permutation (contents w2 it') (contents w1 it) /\
    StronglySorted book_le (contents w2 it') /\
    it' ≠ it /\
    contents w2 it = contents w1 it /\
    books_of inner w2 = books_of inner w1 /\
    books_of inner w1 = books_of inner w /\
    stdout w2 = stdout w1.
Proof.
  intros Hbase.
  split; [reflexivity|]. split; [reflexivity|].
  destruct (get_books_chain inner w)
    as (it & w1 & Hget & Hnew & Hin & Hsub & Hout & Hmax & Hc).
  exists it, w1, (fresh (dom (heap w1))),
    (set_contents (fresh (dom (heap w1))) (sorted_by sort_key (contents w1 it)) w1).
  pose proof (fresh_unallocated w1) as Hf.
  assert (fresh (dom (heap w1)) ≠ it) as Hne by (intros Heq; now rewrite Heq in Hf).
  assert (base inner ∈ dom (heap w1)) as Hbase1
    by (eapply subseteq_dom; eassumption).
  assert (fresh (dom (heap w1)) ≠ base inner) as Hne'
    by (intros Heq; now rewrite Heq in Hf).
  split; [exact Hget|]. split.
  { cbn [get_books]. unfold bind at 1. rewrite Hget. reflexivity. }
  rewrite contents_set_eq.
  split; [apply sorted_by_perm|].
  split; [apply StronglySorted_book_le, sorted_by_sorted|].
  split; [exact Hne|].
  split; [now apply contents_set_ne|].
  split; [now apply contents_set_ne|].
  split; [now apply contents_weaken | reflexivity].
Qed.

Lemma sorted_view_transparent_witness :
  exists it w1 it' w2,
    get_books shelf (shelf_with [Dune; Orwell]) = (Ret it, w1) /\
    get_books (SortedViewLibrary shelf) (shelf_with [Dune; Orwell]) = (Ret it', w2) /\
    Permutation (contents w2 it') (contents w1 it) /\
    StronglySorted book_le (contents w2 it') /\
    it' ≠ it /\
    contents w2 it = contents w1 it /\
    books_of shelf w2 = books_of shelf w1 /\
    books_of shelf w1 = books_of shelf (shelf_with [Dune; Orwell]) /\
    stdout w2 = stdout w1.
Proof.
  apply (sorted_view_transparent shelf (shelf_with [Dune; Orwell])).
  vm_compute. reflexivity.
Defined.

(** ** What a call leaves alone *)

Section Frame.

Implicit Types (lib : LibraryInterface) (w : world) (c : call) (it : loc).

(** A call keeps every list object there is and changes none but the
    library's own. *)
Lemma perform_frame lib c w :
  dom (heap w) ⊆ dom (heap (snd (perform lib c w))) /\
  forall it, it ∈ dom (heap w) -> it ≠ base lib ->
             contents (snd (perform lib c w)) it = contents w it.
Proof.
  destruct c as [b | t | ]; cbn [perform].
  - destruct (add_book_chain lib b w) as [out ->]. cbn [snd]. split.
    + cbn. rewrite dom_insert_L. set_solver.
    + intros it _ Hne. rewrite contents_with_stdout.
      apply contents_set_ne. congruence.
  - destruct (first_match_cases (Str.lower t) (books_of lib w))
      as [Hmiss | (pre & b & rest & Hbs & Hpre & Hb)].
    + destruct (remove_book_miss lib t w Hmiss) as [out ->]. cbn [snd].
      split; [reflexivity|]. intros it _ _. apply contents_with_stdout.
    + destruct (remove_book_hit lib t w pre b rest Hbs Hpre Hb) as [out ->].
      cbn [snd]. split.
      * cbn. rewrite dom_insert_L. set_solver.
      * intros it _ Hne. rewrite contents_with_stdout.
        apply contents_set_ne. congruence.
  - destruct (get_books_chain lib w)
      as (it' & w1 & -> & Hnew & Hin & Hsub & _). cbn [snd]. split.
    + now apply subseteq_dom.
    + intros it Hit _. now apply contents_weaken.
Qed.

Lemma run_frame lib calls w it :
  it ∈ dom (heap w) -> it ≠ base lib ->
  contents (snd (run lib calls w)) it = contents w it.
Proof.
  revert w. induction calls as [|c calls IH]; intros w Hit Hne; [reflexivity|].
  cbn [run]. destruct (perform_frame lib c w) as [Hdom Hsame].
  destruct (perform lib c w) as [a w1]. cbn [snd] in *.
  specialize (IH w1 (Hdom it Hit) Hne).
  destruct (run lib calls w1) as [answers w2]. cbn [snd] in *.
  rewrite IH. now apply Hsame.
Qed.

End Frame.

(** C8: [get_books] returns a snapshot.  For every library whose list
    exists in the state, [get_books] returns a list object that did not
    exist before, hence not the library's own list, holding the library's
    current books as the library presents them (the very list of books for
    an in-memory library).  The library's books are unchanged by the call;
    they stay unchanged however the caller then rewrites the returned list;
    and the returned list keeps its content through any later sequence of
    [add_book], [remove_book] and [get_books] calls on the library. *)
Theorem get_books_snapshot (lib : LibraryInterface) (w : world) :
  base lib ∈ dom (heap w) ->
  exists it w1,
    get_books lib w = (Ret it, w1) /\
    (it ∉ dom (heap w)) /\
    it ≠ base lib /\
    contents w1 it = view lib (books_of lib w) /\
    books_of lib w1 = books_of lib w /\
    (forall new_items,
       books_of lib (snd (mutate it new_items w1)) = books_of lib w) /\
    (forall calls,
       contents (snd (run lib calls w1)) it = view lib (books_of lib w)).
Proof.
  intros Hbase.
  destruct (get_books_chain lib w)
    as (it & w1 & Hget & Hnew & Hin & Hsub & Hout & Hmax & Hc).
  assert (it ≠ base lib) as Hne by (intros Heq; now rewrite Heq in Hnew).
  assert (books_of lib w1 = books_of lib w) as Hkeep
    by now apply contents_weaken.
  exists it, w1. repeat split; try assumption.
  - intros new_items. unfold books_of, mutate. cbn [snd].
    rewrite contents_set_ne by exact Hne. exact Hkeep.
  - intros calls. rewrite run_frame by assumption. exact Hc.
Qed.

Lemma get_books_snapshot_witness :
  exists it w1,
    get_books shelf (shelf_with [Dune; DUNE]) = (Ret it, w1) /\
    (it ∉ dom (heap (shelf_with [Dune; DUNE]))) /\
    it ≠ base shelf /\
    contents w1 it = view shelf (books_of shelf (shelf_with [Dune; DUNE])) /\
    books_of shelf w1 = books_of shelf (shelf_with [Dune; DUNE]) /\
    (forall new_items,
       books_of shelf (snd (mutate it new_items w1)) =
       books_of shelf (shelf_with [Dune; DUNE])) /\
    (forall calls,
       contents (snd (run shelf calls w1)) it =
       view shelf (books_of shelf (shelf_with [Dune; DUNE]))).
Proof.
  apply (get_books_snapshot shelf (shelf_with [Dune; DUNE])).
  vm_compute. reflexivity.
Defined.

(** ** The manager *)

Section Manager.

Import LibraryManager.

Implicit Types (lib : LibraryInterface) (w : world) (t a s : string).

Lemma _parse_year_cases s w :
  _parse_year s w =
  match Str.int (max_str_digits w) s with
  | Some y =>
      if y <=? 0 then (Raise (ValueError year_error), w) else (Ret y, w)
  | None => (Raise (ValueError year_error), w)
  end.
Proof.
  unfold _parse_year, try_except_ValueError.
  destruct (Str.int (max_str_digits w) s) as [y|]; [|reflexivity].
  now destruct (y <=? 0).
Qed.

Lemma manager_add_book_invalid lib t a s w :
  (forall y, Str.int (max_str_digits w) s = Some y -> y <= 0) ->
  LibraryManager.add_book (new lib) t a s w = (Raise (ValueError year_error), w).
Proof.
  intros Hbad. unfold LibraryManager.add_book, bind.
  rewrite _parse_year_cases.
  destruct (Str.int (max_str_digits w) s) as [y|]; [|reflexivity].
  specialize (Hbad y eq_refl).
  destruct (Z.leb_spec y 0); [reflexivity | lia].
Qed.

Lemma manager_add_book_valid lib t a s w y :
  Str.int (max_str_digits w) s = Some y -> 0 < y ->
  exists out,
    LibraryManager.add_book (new lib) t a s w =
    (Ret tt, with_stdout (stdout w ++ out)
               (set_contents (base lib) (books_of lib w ++ [mkBook t a y]) w)).
Proof.
  intros Hint Hpos. unfold LibraryManager.add_book. unfold bind at 1.
  rewrite _parse_year_cases, Hint.
  destruct (Z.leb_spec y 0); [lia|].
  cbn [_lib]. unfold bind.
  destruct (add_book_chain lib (mkBook t a y) w) as [out ->].
  exists (out ++ ["Book added."]). unfold print, with_stdout; simpl.
  now rewrite app_assoc.
Qed.

Lemma print_all_chain (bs : list Book) w :
  exists out, print_all bs w = (Ret tt, with_stdout (stdout w ++ out) w).
Proof.
  revert w. induction bs as [|b bs IH]; intros w.
  - exists []. cbn. unfold ret, with_stdout. now rewrite app_nil_r, world_eta.
  - cbn [print_all]. unfold bind, print.
    destruct (IH (World (heap w) (stdout w ++ [Book_str b]) (max_str_digits w)))
      as [out ->].
    exists (Book_str b :: out). unfold with_stdout; simpl.
    now rewrite <- app_assoc.
Qed.

Lemma show_books_heap lib w :
  heap w ⊆ heap (snd (show_books (new lib) w)).
Proof.
  destruct (get_books_chain lib w)
    as (it & w1 & Hget & _ & _ & Hsub & _).
  unfold show_books. cbn [_lib]. unfold bind at 1. rewrite Hget.
  unfold bind, read, alloc. rewrite contents_set_eq.
  set (w2 := set_contents (fresh (dom (heap w1))) (contents w1 it) w1).
  assert (heap w ⊆ heap w2) as Hsub2.
  { etransitivity; [exact Hsub|].
    unfold w2. rewrite heap_set_contents.
    apply insert_subseteq, fresh_lookup. }
  destruct (contents w1 it) as [|b bs]; [exact Hsub2|].
  destruct (print_all_chain (b :: bs) w2) as [out ->]. exact Hsub2.
Qed.

(** What one turn of the command loop does to the books of the library:
    nothing, or one book with a positive year more at the end, or one
    book less. *)
Lemma turn_books lib cmd w :
  base lib ∈ dom (heap w) ->
  base lib ∈ dom (heap (snd (turn (new lib) cmd w))) /\
  (books_of lib (snd (turn (new lib) cmd w)) = books_of lib w \/
   (exists b, 0 < year b /\
      books_of lib (snd (turn (new lib) cmd w)) = books_of lib w ++ [b]) \/
   (exists pre b rest,
      books_of lib w = pre ++ b :: rest /\
      books_of lib (snd (turn (new lib) cmd w)) = pre ++ rest)).
Proof.
  intros Hbase. destruct cmd as [t a s | t | ]; cbn [turn].
  - unfold try_except_ValueError.
    destruct (Str.int (max_str_digits w) s) as [y|] eqn:Hint.
    + destruct (Z.leb_spec y 0) as [Hle | Hpos].
      * rewrite manager_add_book_invalid
          by (intros y0 Hy0; assert (y0 = y) by congruence; lia).
        cbn. split; [exact Hbase | now left].
      * destruct (manager_add_book_valid lib t a s w y Hint Hpos) as [out ->].
        cbn [snd]. split.
        -- cbn. rewrite dom_insert_L. set_solver.
        -- right. left. exists (mkBook t a y). split; [exact Hpos|].
           unfold books_of. rewrite contents_with_stdout.
           apply contents_set_eq.
    + rewrite manager_add_book_invalid by (intros y0 Hy0; congruence).
      cbn. split; [exact Hbase | now left].
  - unfold LibraryManager.remove_book. cbn [_lib]. unfold bind.
    destruct (first_match_cases (Str.lower t) (books_of lib w))
      as [Hmiss | (pre & b & rest & Hbs & Hpre & Hb)].
    + destruct (remove_book_miss lib t w Hmiss) as [out ->].
      cbn. split; [exact Hbase | now left].
    + destruct (remove_book_hit lib t w pre b rest Hbs Hpre Hb) as [out ->].
      cbn [snd print]. split.
      * cbn. rewrite dom_insert_L. set_solver.
      * right. right. exists pre, b, rest. split; [exact Hbs|].
        unfold books_of, contents. cbn. apply lookup_total_insert_eq.
  - pose proof (show_books_heap lib w) as Hsub. split.
    + eapply subseteq_dom; eassumption.
    + left. now apply contents_weaken.
Qed.

End Manager.

(** C1, with the message the program gives.  For every library, title,
    author, year text and state, [LibraryManager.add_book] raises a
    [ValueError] with the message "Year must be a positive integer." and
    leaves the state as it was whenever [int] rejects the year text or
    gives a value that is at most 0, in particular for the texts "0", "-3"
    and "abc"; and whenever [int] gives a positive value it returns
    normally and the library holds one more book, at the end, with that
    title, that author and that value as its year, in particular 1999 for
    the text "1999". *)
Theorem add_book_validation
  (lib : LibraryInterface) (t a s : string) (w : world) :
  ((Str.int (max_str_digits w) s = None \/
    exists y, Str.int (max_str_digits w) s = Some y /\ y <= 0) ->
   LibraryManager.add_book (LibraryManager.new lib) t a s w =
   (Raise (ValueError "Year must be a positive integer."), w)) /\
  (forall y,
     Str.int (max_str_digits w) s = Some y -> 0 < y ->
     exists w',
       LibraryManager.add_book (LibraryManager.new lib) t a s w = (Ret tt, w') /\
       books_of lib w' = books_of lib w ++ [mkBook t a y]) /\
  (forall raw,
     raw = "0"%string \/ raw = "-3"%string \/ raw = "abc"%string ->
     LibraryManager.add_book (LibraryManager.new lib) t a raw w =
     (Raise (ValueError "Year must be a positive integer."), w)) /\
  (exists w',
     LibraryManager.add_book (LibraryManager.new lib) t a "1999" w = (Ret tt, w') /\
     books_of lib w' = books_of lib w ++ [mkBook t a 1999]).
Proof.
  assert (forall raw y,
            Str.int (max_str_digits w) raw = Some y -> 0 < y ->
            exists w',
              LibraryManager.add_book (LibraryManager.new lib) t a raw w = (Ret tt, w') /\
              books_of lib w' = books_of lib w ++ [mkBook t a y]) as Hvalid.
  { intros raw y Hint Hpos.
    destruct (manager_add_book_valid lib t a raw w y Hint Hpos) as [out ->].
    eexists. split; [reflexivity|].
    unfold books_of. rewrite contents_with_stdout. apply contents_set_eq. }
  split; [|split; [|split]].
  - intros Hbad. apply manager_add_book_invalid.
    intros y Hy. destruct Hbad as [Hnone | (y' & Hy' & Hle)]; congruence.
  - exact (Hvalid s).
  - intros raw Hraw. apply manager_add_book_invalid. intros y.
    destruct Hraw as [-> | [-> | ->]]; cbn; intros [= <-]; lia.
  - apply (Hvalid "1999"%string 1999); [reflexivity | lia].
Qed.

(** The message of the error is not the one of the specification: it
    starts with a capital letter and ends with a full stop. *)
Lemma add_book_validation_message :
  fst (LibraryManager.add_book (LibraryManager.new shelf) "Dune" "Herbert" "0"
         (shelf_with []))
  <> Raise (ValueError "year must be a positive integer").
Proof. vm_compute. discriminate. Qed.

(** C9: a failed [add_book] changes nothing.  For every library, title,
    author, year text and state, the manager's [add_book] raises its
    validation error exactly when [int] gives no positive value for the
    year text, and then the state after the call is the state before it:
    the heap of lists, so the library's books, and the output.  No other
    error comes out of the call. *)
Theorem add_book_atomic_on_error
  (lib : LibraryInterface) (t a s : string) (w : world) :
  ((forall y, Str.int (max_str_digits w) s = Some y -> y <= 0) <->
   LibraryManager.add_book (LibraryManager.new lib) t a s w =
   (Raise (ValueError LibraryManager.year_error), w)) /\
  (forall e w',
     LibraryManager.add_book (LibraryManager.new lib) t a s w = (Raise e, w') ->
     w' = w /\ e = ValueError LibraryManager.year_error /\
     books_of lib w' = books_of lib w /\
     forall y, Str.int (max_str_digits w) s = Some y -> y <= 0).
Proof.
  assert (forall e w',
            LibraryManager.add_book (LibraryManager.new lib) t a s w = (Raise e, w') ->
            forall y, Str.int (max_str_digits w) s = Some y -> y <= 0) as Honly.
  { intros e w' Hraise y Hint.
    destruct (Z.leb_spec y 0) as [Hle | Hpos]; [exact Hle|].
    destruct (manager_add_book_valid lib t a s w y Hint Hpos) as [out Hok].
    congruence. }
  split; [split|].
  - apply manager_add_book_invalid.
  - apply Honly.
  - intros e w' Hraise. pose proof (Honly e w' Hraise) as Hbad.
    rewrite (manager_add_book_invalid lib t a s w Hbad) in Hraise.
    injection Hraise as <- <-. repeat split. exact Hbad.
Qed.



(** * Further properties of the code *)

(** ** [int] and [str] on integers *)

Section Numerals.

Import Decimal.

Lemma pow10_succ (k : nat) : 10 ^ Z.of_nat (S k) = 10 * 10 ^ Z.of_nat k.
Proof. rewrite Nat2Z.inj_succ. apply Z.pow_succ_r. lia. Qed.

Lemma of_uint_acc_value (d : uint) (a : positive) :
  Z.pos (Pos.of_uint_acc d a) =
  Z.pos a * 10 ^ Z.of_nat (nb_digits d) + Z.of_N (Pos.of_uint d).
Proof.
  revert a. induction d as [|d IH|d IH|d IH|d IH|d IH|d IH|d IH|d IH|d IH|d IH];
    intros a; cbn [Pos.of_uint_acc Pos.of_uint nb_digits];
    try (rewrite pow10_succ; cbn [Z.of_N]; rewrite !IH; lia).
  cbn. lia.
Qed.

(** The digit loop reads a numeral to its end and finds its value. *)
Lemma scan_digits_numeral (d : uint) (acc : Z) (n : nat) :
  Str.scan_digits false acc n (NilEmpty.string_of_uint d) =
  Some (acc * 10 ^ Z.of_nat (nb_digits d) + Z.of_N (Pos.of_uint d),
        (n + nb_digits d)%nat, EmptyString).
Proof.
  revert acc n.
  induction d as [|d IH|d IH|d IH|d IH|d IH|d IH|d IH|d IH|d IH|d IH];
    intros acc n;
    cbn [NilEmpty.string_of_uint Str.scan_digits nb_digits Pos.of_uint];
    try (change (Str.digit "0") with (Some 0);
         change (Str.digit "1") with (Some 1);
         change (Str.digit "2") with (Some 2);
         change (Str.digit "3") with (Some 3);
         change (Str.digit "4") with (Some 4);
         change (Str.digit "5") with (Some 5);
         change (Str.digit "6") with (Some 6);
         change (Str.digit "7") with (Some 7);
         change (Str.digit "8") with (Some 8);
         change (Str.digit "9") with (Some 9);
         cbv iota; rewrite IH, pow10_succ; cbn [Z.of_N];
         rewrite ?of_uint_acc_value;
         f_equal; apply (f_equal2 pair); [apply (f_equal2 pair); lia | reflexivity]).
  cbn. f_equal. apply (f_equal2 pair); [apply (f_equal2 pair); lia | reflexivity].
Qed.

Lemma string_of_uint_length (d : uint) :
  String.length (NilEmpty.string_of_uint d) = nb_digits d.
Proof. induction d; cbn; congruence. Qed.

Lemma string_of_uint_head (d : uint) :
  d <> Nil ->
  exists c r, NilEmpty.string_of_uint d = String c r /\ Str.digit c <> None.
Proof.
  intros Hd. destruct d; [contradiction | ..];
    cbn [NilEmpty.string_of_uint]; eexists _, _; (split; [reflexivity|]);
    discriminate.
Qed.

(** A text that starts with a digit has no blanks and no sign to skip. *)
Lemma int_unsigned (m : nat) (c : ascii) (r : string) :
  Str.digit c <> None ->
  Str.int m (String c r) =
  match Str.scan_digits false 0 0 (String c r) with
  | Some (v, digits, rest) =>
      if (digits =? 0)%nat then None
      else if Str.too_many_digits m digits then None
      else match Str.lstrip rest with
           | EmptyString => Some (1 * v)
           | String _ _ => None
           end
  | None => None
  end.
Proof.
  intros Hc.
  destruct c as [[|] [|] [|] [|] [|] [|] [|] [|]];
    try (exfalso; apply Hc; reflexivity); reflexivity.
Qed.

Lemma int_negative (m : nat) (c : ascii) (r : string) :
  Str.digit c <> None ->
  Str.int m (String "-" (String c r)) =
  match Str.scan_digits false 0 0 (String c r) with
  | Some (v, digits, rest) =>
      if (digits =? 0)%nat then None
      else if Str.too_many_digits m digits then None
      else match Str.lstrip rest with
           | EmptyString => Some (-1 * v)
           | String _ _ => None
           end
  | None => None
  end.
Proof.
  intros Hc.
  destruct c as [[|] [|] [|] [|] [|] [|] [|] [|]];
    try (exfalso; apply Hc; reflexivity); reflexivity.
Qed.

Lemma to_uint_not_Nil (p : positive) : Pos.to_uint p <> Nil.
Proof.
  intros Hnil. pose proof (DecimalPos.Unsigned.of_to p) as Hp.
  rewrite Hnil in Hp. discriminate.
Qed.

Lemma numeral_of_pos (p : positive) :
  NilZero.string_of_uint (Pos.to_uint p) = NilEmpty.string_of_uint (Pos.to_uint p).
Proof.
  pose proof (to_uint_not_Nil p). now destruct (Pos.to_uint p).
Qed.

Lemma int_of_numeral (m : nat) (p : positive) :
  Str.too_many_digits m (nb_digits (Pos.to_uint p)) = false ->
  Str.int m (NilEmpty.string_of_uint (Pos.to_uint p)) = Some (Z.pos p) /\
  Str.int m (String "-" (NilEmpty.string_of_uint (Pos.to_uint p))) = Some (Z.neg p).
Proof.
  intros Hlimit.
  destruct (string_of_uint_head _ (to_uint_not_Nil p)) as (c & r & Hs & Hc).
  assert (nb_digits (Pos.to_uint p) <> O) as Hnz.
  { rewrite <- string_of_uint_length, Hs. discriminate. }
  assert (Str.scan_digits false 0 0 (String c r) =
          Some (Z.pos p, nb_digits (Pos.to_uint p), EmptyString)) as Hscan.
  { rewrite <- Hs, scan_digits_numeral, DecimalPos.Unsigned.of_to.
    f_equal. }
  split.
  - rewrite Hs, (int_unsigned m c r Hc), Hscan, Hlimit.
    destruct (Nat.eqb_spec (nb_digits (Pos.to_uint p)) 0); [contradiction|].
    reflexivity.
  - rewrite Hs, (int_negative m c r Hc), Hscan, Hlimit.
    destruct (Nat.eqb_spec (nb_digits (Pos.to_uint p)) 0); [contradiction|].
    reflexivity.
Qed.

(** [int(str(n))] is [n], within the limit on digits. *)
Lemma int_of_str (m : nat) (n : Z) :
  Str.too_many_digits m (String.length (Str.of_int (Z.abs n))) = false ->
  Str.int m (Str.of_int n) = Some n.
Proof.
  destruct n as [|p|p]; unfold Str.of_int, Z.abs, Z.to_int, NilZero.string_of_int.
  - intros _. reflexivity.
  - rewrite numeral_of_pos, string_of_uint_length. intros Hlimit.
    apply (int_of_numeral m p Hlimit).
  - rewrite numeral_of_pos, string_of_uint_length. intros Hlimit.
    apply (int_of_numeral m p Hlimit).
Qed.

End Numerals.

(** ** A chain of decorators as a list of books *)

Section Replay.

Implicit Types (lib : LibraryInterface) (w : world) (b : Book) (t : string)
  (bs pre rest : list Book).

Lemma remove_first_miss t bs :
  Forall (fun b => ~ matches t b) bs -> remove_first t bs = bs.
Proof. intros H. unfold remove_first. now rewrite first_match_miss. Qed.

Lemma remove_first_hit t pre b rest :
  Forall (fun x => ~ matches t x) pre -> matches t b ->
  remove_first t (pre ++ b :: rest) = pre ++ rest.
Proof.
  intros Hpre Hb. unfold remove_first.
  rewrite (first_match_hit _ 0 pre b rest Hpre Hb). apply delete_middle.
Qed.

Lemma miss_no_match t bs :
  Forall (fun b => ~ matches t b) bs -> ~ Exists (matches t) bs.
Proof.
  intros Hall Hex. apply Exists_exists in Hex as (x & Hin & Hx).
  rewrite Forall_forall in Hall. exact (Hall x Hin Hx).
Qed.

Lemma add_book_logged lib b w :
  add_book lib b w =
  (Ret tt, with_stdout (stdout w ++ logged lib (Add b))
             (set_contents (base lib) (books_of lib w ++ [b]) w)).
Proof.
  revert w. induction lib as [l | inner IH | inner IH]; intros w.
  - cbn. unfold append, with_stdout, set_contents; simpl.
    now rewrite app_nil_r.
  - cbn [add_book]. unfold bind, print. rewrite IH.
    unfold logged. cbn [loggers replicate concat log_lines].
    unfold with_stdout, set_contents, books_of, contents; simpl.
    now rewrite <- app_assoc.
  - exact (IH w).
Qed.

Lemma remove_book_logged lib t w :
  remove_book lib t w =
  (Ret (bool_decide (Exists (matches t) (books_of lib w))),
   with_stdout (stdout w ++ logged lib (Remove t))
     (if bool_decide (Exists (matches t) (books_of lib w))
      then set_contents (base lib) (remove_first t (books_of lib w)) w
      else w)).
Proof.
  revert w. induction lib as [l | inner IH | inner IH]; intros w.
  - unfold logged. cbn [loggers replicate concat]. rewrite app_nil_r.
    destruct (first_match_cases (Str.lower t) (books_of (InMemoryLibrary l) w))
      as [Hmiss | (pre & b & rest & Hbs & Hpre & Hb)].
    + rewrite (remove_book_mem_miss l t w Hmiss).
      rewrite bool_decide_eq_false_2 by now apply miss_no_match.
      now rewrite with_stdout_id.
    + rewrite (remove_book_mem_hit l t w pre b rest Hbs Hpre Hb).
      rewrite bool_decide_eq_true_2.
      * rewrite Hbs, (remove_first_hit t pre b rest Hpre Hb). reflexivity.
      * rewrite Hbs. apply Exists_app. right. now constructor.
  - cbn [remove_book]. unfold bind at 1. unfold print. rewrite IH.
    unfold logged. cbn [loggers replicate concat log_lines].
    unfold books_of, contents. cbn [heap stdout base].
    destruct (bool_decide (Exists (matches t) (heap w !!! base inner)));
      unfold with_stdout, set_contents; simpl; now rewrite <- app_assoc.
  - exact (IH w).
Qed.

(** One call on a chain, seen on the list of books. *)
Lemma perform_books lib c w :
  base lib ∈ dom (heap w) ->
  base lib ∈ dom (heap (snd (perform lib c w))) /\
  books_of lib (snd (perform lib c w)) = replay_step (books_of lib w) c /\
  expected lib (books_of lib w) c (fst (perform lib c w)).
Proof.
  intros Hbase. destruct c as [b | t | ]; cbn [perform].
  - rewrite add_book_logged. cbn [fst snd expected replay_step].
    split; [|split; [|exact I]].
    + cbn. rewrite dom_insert_L. set_solver.
    + unfold books_of. rewrite contents_with_stdout. apply contents_set_eq.
  - rewrite remove_book_logged. cbn [fst snd expected replay_step].
    destruct (decide (Exists (matches t) (books_of lib w))) as [Hex | Hno].
    + rewrite bool_decide_eq_true_2 by exact Hex.
      split; [|split; [|tauto]].
      * cbn. rewrite dom_insert_L. set_solver.
      * unfold books_of. rewrite contents_with_stdout. apply contents_set_eq.
    + rewrite bool_decide_eq_false_2 by exact Hno.
      split; [exact Hbase|]. split.
      * unfold books_of. rewrite contents_with_stdout.
        symmetry. apply remove_first_miss.
        apply Forall_forall. intros x Hin Hx. apply Hno.
        apply Exists_exists. eauto.
      * split; [discriminate | contradiction].
  - destruct (get_books_chain lib w)
      as (it & w1 & Hget & Hnew & Hin & Hsub & _ & _ & Hc).
    rewrite Hget. cbn [fst snd expected replay_step].
    split; [eapply subseteq_dom; eassumption|].
    split; [now apply contents_weaken | exact Hc].
Qed.

Lemma run_books lib calls w :
  base lib ∈ dom (heap w) ->
  base lib ∈ dom (heap (snd (run lib calls w))) /\
  books_of lib (snd (run lib calls w)) = replay calls (books_of lib w) /\
  all_expected lib (books_of lib w) calls (fst (run lib calls w)).
Proof.
  revert w. induction calls as [|c calls IH]; intros w Hbase.
  - cbn. auto.
  - cbn [run]. destruct (perform_books lib c w Hbase) as (Hb1 & Hbooks & Hexp).
    destruct (perform lib c w) as [a w1]. cbn [fst snd] in *.
    destruct (IH w1 Hb1) as (Hb2 & Hbooks2 & Hall).
    destruct (run lib calls w1) as [answers w2]. cbn [fst snd] in *.
    split; [exact Hb2|]. split.
    + rewrite Hbooks2, Hbooks. reflexivity.
    + cbn [all_expected]. split; [exact Hexp|]. now rewrite <- Hbooks.
Qed.

Lemma filter_miss t bs :
  Forall (fun b => ~ matches t b) bs ->
  filter (fun b => ~ matches t b) bs = bs /\ filter (matches t) bs = [].
Proof.
  induction 1 as [|x bs Hx _ [IH1 IH2]]; [now split|].
  rewrite filter_cons_True by exact Hx.
  rewrite (filter_cons_False (matches t)) by exact Hx.
  now rewrite IH1, IH2.
Qed.

(** Removing a title often enough leaves the books of other titles. *)
Lemma replay_removes t n bs :
  (length (filter (matches t) bs) <= n)%nat ->
  replay (replicate n (Remove t)) bs = filter (fun b => ~ matches t b) bs.
Proof.
  revert bs. induction n as [|n IH]; intros bs Hn.
  - destruct (first_match_cases (Str.lower t) bs)
      as [Hmiss | (pre & b & rest & -> & Hpre & Hb)].
    + cbn. symmetry. now apply filter_miss.
    + rewrite filter_app, (filter_cons_True (matches t)) in Hn by exact Hb.
      rewrite length_app in Hn. cbn in Hn. lia.
  - change (replay (replicate (S n) (Remove t)) bs)
      with (replay (replicate n (Remove t)) (remove_first t bs)).
    destruct (first_match_cases (Str.lower t) bs)
      as [Hmiss | (pre & b & rest & -> & Hpre & Hb)].
    + rewrite (remove_first_miss t bs Hmiss). apply IH.
      destruct (filter_miss t bs Hmiss) as [_ ->]. cbn. lia.
    + rewrite (remove_first_hit t pre b rest Hpre Hb).
      rewrite filter_app, (filter_cons_True (matches t)), length_app in Hn
        by exact Hb.
      cbn [length] in Hn.
      rewrite IH.
      * rewrite !filter_app.
        rewrite (filter_cons_False (fun b => ~ matches t b)) by tauto.
        reflexivity.
      * rewrite filter_app, length_app. lia.
Qed.

Lemma sorted_by_sorted_id {A} (key : A -> string * Z) (xs : list A) :
  StronglySorted (le_by key) xs -> sorted_by key xs = xs.
Proof.
  induction 1 as [|x xs Hs IH Hall]; [reflexivity|].
  cbn [sorted_by]. rewrite IH.
  destruct Hall as [|y ys Hxy _]; [reflexivity|].
  cbn [insert_by]. unfold le_by in Hxy. now rewrite Hxy.
Qed.

Lemma sorted_by_idem {A} (key : A -> string * Z) (xs : list A) :
  sorted_by key (sorted_by key xs) = sorted_by key xs.
Proof. apply sorted_by_sorted_id, sorted_by_sorted. Qed.

Lemma key_le_antisym (k1 k2 : string * Z) :
  key_le k1 k2 = true -> key_le k2 k1 = true -> k1 = k2.
Proof.
  unfold key_le. rewrite (String.compare_antisym (fst k2) (fst k1)).
  destruct (String.compare (fst k1) (fst k2)) eqn:Hc; cbn; try discriminate.
  apply compare_eq in Hc. rewrite !Z.leb_le. intros H1 H2.
  destruct k1, k2; cbn in *. f_equal; [exact Hc | lia].
Qed.

(** Books with pairwise different keys have one sorted order. *)
Lemma sorted_by_canonical (bs1 bs2 : list Book) :
  Permutation bs1 bs2 ->
  NoDup (map sort_key bs1) ->
  sorted_by sort_key bs1 = sorted_by sort_key bs2.
Proof.
  intros Hperm Hkeys.
  apply (StronglySorted_unique_strong (le_by sort_key)).
  - intros x1 x2 Hx1 Hx2 H12 H21.
    pose proof (key_le_antisym _ _ H12 H21) as Hk.
    rewrite sorted_by_perm in Hx1. rewrite sorted_by_perm, <- Hperm in Hx2.
    apply list_elem_of_lookup in Hx1 as [i Hi], Hx2 as [j Hj].
    change (map sort_key bs1) with (sort_key <$> bs1) in Hkeys.
    assert (i = j) as ->.
    { apply (NoDup_lookup _ i j (sort_key x1) Hkeys).
      - now rewrite list_lookup_fmap, Hi.
      - rewrite list_lookup_fmap, Hj. cbn. congruence. }
    congruence.
  - apply sorted_by_sorted.
  - apply sorted_by_sorted.
  - now rewrite !sorted_by_perm.
Qed.

End Replay.

(** ** What the manager prints *)

Section Reports.

Import LibraryManager.

Implicit Types (lib : LibraryInterface) (w : world) (t a s : string).

Lemma print_all_lines (bs : list Book) w :
  print_all bs w = (Ret tt, with_stdout (stdout w ++ map Book_str bs) w).
Proof.
  revert w. induction bs as [|b bs IH]; intros w.
  - cbn. unfold ret, with_stdout. now rewrite app_nil_r, world_eta.
  - cbn [print_all]. unfold bind, print. rewrite IH.
    unfold with_stdout; simpl. now rewrite <- app_assoc.
Qed.

Lemma show_books_lines lib w :
  exists w',
    show_books (new lib) w = (Ret tt, w') /\
    heap w ⊆ heap w' /\
    max_str_digits w' = max_str_digits w /\
    stdout w' = stdout w ++ show_lines (view lib (books_of lib w)).
Proof.
  destruct (get_books_chain lib w)
    as (it & w1 & Hget & _ & _ & Hsub & Hout & Hmax & Hc).
  unfold show_books. cbn [_lib]. unfold bind at 1. rewrite Hget.
  unfold bind, read, alloc. rewrite contents_set_eq, Hc.
  set (w2 := set_contents (fresh (dom (heap w1))) (view lib (books_of lib w)) w1).
  assert (heap w ⊆ heap w2) as Hsub2.
  { etransitivity; [exact Hsub|].
    unfold w2. rewrite heap_set_contents.
    apply insert_subseteq, fresh_lookup. }
  destruct (view lib (books_of lib w)) as [|b bs] eqn:Hview.
  - eexists. split; [reflexivity|]. cbn. rewrite Hout. auto.
  - rewrite print_all_lines. eexists. split; [reflexivity|].
    cbn. rewrite Hout. auto.
Qed.

Lemma manager_remove_book_lines lib t w :
  LibraryManager.remove_book (new lib) t w =
  (Ret tt,
   if bool_decide (Exists (matches t) (books_of lib w))
   then with_stdout (stdout w ++ logged lib (Remove t) ++ ["Book removed."])
          (set_contents (base lib) (remove_first t (books_of lib w)) w)
   else with_stdout (stdout w ++ logged lib (Remove t) ++ ["Book not found."]) w).
Proof.
  unfold LibraryManager.remove_book. cbn [_lib]. unfold bind.
  rewrite remove_book_logged.
  destruct (bool_decide (Exists (matches t) (books_of lib w)));
    unfold print, with_stdout; simpl; now rewrite <- app_assoc.
Qed.

Lemma manager_add_book_lines lib t a s w y :
  Str.int (max_str_digits w) s = Some y -> 0 < y ->
  LibraryManager.add_book (new lib) t a s w =
  (Ret tt, with_stdout
             (stdout w ++ logged lib (Add (mkBook t a y)) ++ ["Book added."])
             (set_contents (base lib) (books_of lib w ++ [mkBook t a y]) w)).
Proof.
  intros Hint Hpos. unfold LibraryManager.add_book. unfold bind at 1.
  rewrite _parse_year_cases, Hint.
  destruct (Z.leb_spec y 0); [lia|].
  cbn [_lib]. unfold bind. rewrite add_book_logged.
  unfold print, with_stdout; simpl. now rewrite <- app_assoc.
Qed.

(** A turn of the loop returns normally and keeps the list of the library
    in place, with positive years if they were. *)
Lemma turn_keeps lib cmd w :
  base lib ∈ dom (heap w) -> years_positive (books_of lib w) ->
  exists w',
    turn (new lib) cmd w = (Ret tt, w') /\
    base lib ∈ dom (heap w') /\ years_positive (books_of lib w').
Proof.
  intros Hbase Hpos.
  destruct (turn_books lib cmd w Hbase) as [Hbase' Hbooks].
  assert (exists w', turn (new lib) cmd w = (Ret tt, w')) as [w' Hturn].
  { destruct cmd as [t a s | t | ]; cbn [turn].
    - unfold try_except_ValueError.
      destruct (Str.int (max_str_digits w) s) as [y|] eqn:Hint.
      + destruct (Z.leb_spec y 0) as [Hle | Hy].
        * rewrite manager_add_book_invalid
            by (intros y0 Hy0; assert (y0 = y) by congruence; lia).
          eexists. reflexivity.
        * rewrite (manager_add_book_lines lib t a s w y Hint Hy).
          eexists. reflexivity.
      + rewrite manager_add_book_invalid by (intros y0 Hy0; congruence).
        eexists. reflexivity.
    - rewrite manager_remove_book_lines. eexists. reflexivity.
    - destruct (show_books_lines lib w) as (w' & -> & _). eexists. reflexivity. }
  rewrite Hturn in Hbase', Hbooks. cbn [snd] in *.
  exists w'. split; [exact Hturn|]. split; [exact Hbase'|].
  unfold years_positive in *.
  destruct Hbooks as [-> | [(b & Hb & ->) | (pre & b & rest & Hbs & ->)]].
  - exact Hpos.
  - apply Forall_app. split; [exact Hpos | now constructor].
  - rewrite Hbs in Hpos. apply Forall_app in Hpos as [Hpre Hrest].
    apply Forall_app. split; [exact Hpre | now inversion Hrest].
Qed.

End Reports.

(** ** The loop of [main] *)

Section MainLoop.

Implicit Types (lib : LibraryInterface) (w : world) (stdin rest : list string).

Lemma main_loop_ends lib stdin w :
  base lib ∈ dom (heap w) -> years_positive (books_of lib w) ->
  exists e rest w',
    main_loop (LibraryManager.new lib) stdin w = (e, rest, w') /\
    (e = Exited \/ e = EndOfInput) /\
    (e = EndOfInput -> rest = []) /\
    (e = Exited ->
     exists read line, stdin = read ++ line :: rest /\ is_exit line) /\
    base lib ∈ dom (heap w') /\ years_positive (books_of lib w').
Proof.
  remember (length stdin) as n eqn:Hn.
  assert (length stdin <= n)%nat as Hlen by lia. clear Hn.
  revert stdin w Hlen.
  induction n as [|n IH]; intros stdin w Hlen Hbase Hpos.
  { destruct stdin; [|cbn in Hlen; lia].
    cbn. eexists _, _, _. split; [reflexivity|].
    repeat split; auto; discriminate. }
  assert (forall rest' w1,
            (length rest' <= n)%nat ->
            base lib ∈ dom (heap w1) -> years_positive (books_of lib w1) ->
            forall skipped, stdin = skipped ++ rest' ->
            exists e rest w',
              main_loop (LibraryManager.new lib) rest' w1 = (e, rest, w') /\
              (e = Exited \/ e = EndOfInput) /\
              (e = EndOfInput -> rest = []) /\
              (e = Exited ->
               exists read line, stdin = read ++ line :: rest /\ is_exit line) /\
              base lib ∈ dom (heap w') /\ years_positive (books_of lib w'))
    as Hnext.
  { intros rest' w1 Hl Hb1 Hp1 skipped ->.
    destruct (IH rest' w1 Hl Hb1 Hp1)
      as (e & rest & w' & Hrun & He & Heof & Hexit & Hb' & Hp').
    exists e, rest, w'. repeat split; try assumption.
    intros Hex. destruct (Hexit Hex) as (read & line & -> & Hline).
    exists (skipped ++ read), line. now rewrite <- app_assoc. }
  assert (forall text, base lib ∈ dom (heap (prompt text w))) as Hbp by (intros; exact Hbase).
  destruct stdin as [|line rest].
  { cbn. eexists _, _, _. split; [reflexivity|].
    repeat split; auto; discriminate. }
  cbn [length] in Hlen. cbn [main_loop].
  set (w0 := prompt "Enter command (add, remove, show, exit): " w).
  destruct (decide (Str.lower (Str.strip line) = "add"%string)) as [_|_].
  { destruct rest as [|title [|author [|year rest3]]];
      try (eexists _, _, _; split; [reflexivity|];
           repeat split; auto; discriminate).
    destruct (turn_keeps lib
                (CmdAdd (Str.strip title) (Str.strip author) (Str.strip year))
                (prompt "Enter book year: "
                   (prompt "Enter book author: "
                      (prompt "Enter book title: " w0))) Hbase Hpos)
      as (w4 & -> & Hb4 & Hp4).
    apply (Hnext rest3 w4) with (skipped := [line; title; author; year]);
      [cbn in Hlen; lia | exact Hb4 | exact Hp4 | reflexivity]. }
  destruct (decide (Str.lower (Str.strip line) = "remove"%string)) as [_|_].
  { destruct rest as [|title rest1];
      try (eexists _, _, _; split; [reflexivity|];
           repeat split; auto; discriminate).
    destruct (turn_keeps lib (CmdRemove (Str.strip title))
                (prompt "Enter book title to remove: " w0) Hbase Hpos)
      as (w2 & -> & Hb2 & Hp2).
    apply (Hnext rest1 w2) with (skipped := [line; title]);
      [cbn in Hlen; lia | exact Hb2 | exact Hp2 | reflexivity]. }
  destruct (decide (Str.lower (Str.strip line) = "show"%string)) as [_|_].
  { destruct (turn_keeps lib CmdShow w0 Hbase Hpos) as (w1 & -> & Hb1 & Hp1).
    apply (Hnext rest w1) with (skipped := [line]);
      [lia | exact Hb1 | exact Hp1 | reflexivity]. }
  destruct (decide (Str.lower (Str.strip line) = "exit"%string)) as [Hexit|_].
  { eexists _, _, _. split; [reflexivity|].
    repeat split; auto; try discriminate.
    intros _. exists [], line. split; [reflexivity | exact Hexit]. }
  cbn [print].
  apply (Hnext rest) with (skipped := [line]);
    [lia | exact Hbase | exact Hpos | reflexivity].
Qed.

Lemma main_setup_result w :
  main_setup w =
  (Ret (LibraryManager.new
          (SortedViewLibrary
             (LoggingLibraryDecorator (InMemoryLibrary (fresh (dom (heap w))))))),
   set_contents (fresh (dom (heap w))) [] w).
Proof. reflexivity. Qed.

Lemma main_ends_aux stdin w :
  exists e rest w',
    main stdin w = (e, rest, w') /\
    (e = Exited \/ e = EndOfInput) /\
    (e = EndOfInput -> rest = []) /\
    (e = Exited ->
     exists read line, stdin = read ++ line :: rest /\ is_exit line) /\
    years_positive (contents w' (fresh (dom (heap w)))).
Proof.
  unfold main. rewrite main_setup_result.
  set (l := fresh (dom (heap w))).
  destruct (main_loop_ends
              (SortedViewLibrary (LoggingLibraryDecorator (InMemoryLibrary l)))
              stdin (set_contents l [] w))
    as (e & rest & w' & Hrun & He & Heof & Hexit & _ & Hp').
  - cbn. rewrite dom_insert_L. set_solver.
  - unfold books_of. cbn [base]. rewrite contents_set_eq. constructor.
  - exists e, rest, w'. repeat split; assumption.
Qed.

End MainLoop.

(** ** Putting texts together *)

Section Texts.

Implicit Types (s u p : string).

Lemma append_cons (c : ascii) s u : String c s +:+ u = String c (s +:+ u).
Proof. reflexivity. Qed.

Lemma append_length s u :
  String.length (s +:+ u) = (String.length s + String.length u)%nat.
Proof.
  induction s as [|c s IH]; [reflexivity|].
  rewrite append_cons. cbn [String.length]. now rewrite IH.
Qed.

Lemma append_assoc s u p : (s +:+ u) +:+ p = s +:+ (u +:+ p).
Proof.
  induction s as [|c s IH]; [reflexivity|].
  rewrite !append_cons. now rewrite IH.
Qed.

(** Two texts with endings of one length are equal only piece by piece. *)
Lemma append_same_length s1 s2 u1 u2 :
  String.length u1 = String.length u2 ->
  s1 +:+ u1 = s2 +:+ u2 -> s1 = s2 /\ u1 = u2.
Proof.
  intros Hlen. revert s2.
  induction s1 as [|c s1 IH]; intros [|c2 s2] Heq.
  - now split.
  - exfalso. apply (f_equal String.length) in Heq.
    change (EmptyString +:+ u1) with u1 in Heq.
    rewrite append_length in Heq. cbn [String.length] in Heq. lia.
  - exfalso. apply (f_equal String.length) in Heq.
    change (EmptyString +:+ u2) with u2 in Heq.
    rewrite append_length in Heq. cbn [String.length] in Heq. lia.
  - rewrite !append_cons in Heq. injection Heq as -> Heq.
    destruct (IH s2 Heq) as [-> ->]. now split.
Qed.

Lemma append_cancel_l s u1 u2 : s +:+ u1 = s +:+ u2 -> u1 = u2.
Proof.
  induction s as [|c s IH]; [trivial|].
  rewrite !append_cons. intros [= Heq]. auto.
Qed.

End Texts.

(** ** The vehicle factories *)

Section Vehicles.

Import Factory.

Lemma create_car_inj f1 f2 mk1 mk2 md1 md2 :
  create_car f1 mk1 md1 = create_car f2 mk2 md2 ->
  f1 = f2 /\ mk1 = mk2 /\ md1 = md2.
Proof.
  unfold create_car. intros [= -> Hmodel].
  apply append_same_length in Hmodel as [-> Hsuffix].
  - destruct f1, f2; try discriminate; auto.
  - now destruct f1, f2.
Qed.

Lemma create_motorcycle_inj f1 f2 mk1 mk2 md1 md2 :
  create_motorcycle f1 mk1 md1 = create_motorcycle f2 mk2 md2 ->
  f1 = f2 /\ mk1 = mk2 /\ md1 = md2.
Proof.
  unfold create_motorcycle. intros [= -> Hmodel].
  apply append_same_length in Hmodel as [-> Hsuffix].
  - destruct f1, f2; try discriminate; auto.
  - now destruct f1, f2.
Qed.

Lemma start_engine_prints (v : Vehicle) w :
  exists line,
    start_engine v w = (Ret tt, with_stdout (stdout w ++ [line]) w).
Proof. destruct v; eexists; reflexivity. Qed.

Lemma engine_lines_differ mk1 md1 mk2 md2 :
  mk1 +:+ " " +:+ md1 +:+ ": Двигун запущено" <>
  mk2 +:+ " " +:+ md2 +:+ ": Мотор заведено".
Proof.
  change ": Двигун запущено" with (": Двигун запу" +:+ "щено").
  change ": Мотор заведено" with (": Мотор заве" +:+ "дено").
  rewrite <- !append_assoc. intros Heq.
  apply append_same_length in Heq as [_ Heq]; [discriminate | reflexivity].
Qed.

End Vehicles.

(** ** New libraries *)

Lemma new_libraries (w : world) :
  exists l1 w1 l2 w2,
    InMemoryLibrary_new w = (Ret (InMemoryLibrary l1), w1) /\
    InMemoryLibrary_new w1 = (Ret (InMemoryLibrary l2), w2) /\
    l1 ≠ l2 /\ (l1 ∉ dom (heap w)) /\ (l2 ∉ dom (heap w)) /\
    (l1 ∈ dom (heap w2)) /\ (l2 ∈ dom (heap w2)) /\
    contents w2 l1 = [] /\ contents w2 l2 = [] /\
    heap w ⊆ heap w2.
Proof.
  set (l1 := fresh (dom (heap w))).
  set (w1 := set_contents l1 [] w).
  set (l2 := fresh (dom (heap w1))).
  exists l1, w1, l2, (set_contents l2 [] w1).
  pose proof (fresh_unallocated w) as Hf1.
  pose proof (fresh_unallocated w1) as Hf2.
  fold l1 in Hf1. fold l2 in Hf2.
  unfold w1 in Hf2. rewrite heap_set_contents, dom_insert_L in Hf2.
  assert (l1 ≠ l2) as Hne by set_solver.
  split; [reflexivity|]. split; [reflexivity|].
  split; [exact Hne|]. split; [exact Hf1|]. split; [set_solver|].
  split; [rewrite !heap_set_contents, !dom_insert_L; set_solver|].
  split; [rewrite !heap_set_contents, !dom_insert_L; set_solver|].
  split.
  { rewrite contents_set_ne by congruence. apply contents_set_eq. }
  split; [apply contents_set_eq|].
  transitivity (heap w1).
  - exact (insert_subseteq (heap w) l1 [] (fresh_lookup w)).
  - exact (insert_subseteq (heap w1) l2 [] (fresh_lookup w1)).
Qed.

(** * More properties of the program *)

(** X1: the manager's [remove_book] always returns normally and reports
    what happened.  After the lines of the logging decorators of the chain
    it prints "Book not found." and changes nothing else when no title
    matches, and "Book removed." when the first matching book [b] has been
    taken out of [pre ++ b :: rest]. *)
Theorem manager_remove_book_reports
  (lib : LibraryInterface) (t : string) (w : world) :
  (Forall (fun b => ~ matches t b) (books_of lib w) ->
   LibraryManager.remove_book (LibraryManager.new lib) t w =
   (Ret tt,
    with_stdout (stdout w ++ logged lib (Remove t) ++ ["Book not found."]) w)) /\
  (forall pre b rest,
     books_of lib w = pre ++ b :: rest ->
     Forall (fun x => ~ matches t x) pre -> matches t b ->
     LibraryManager.remove_book (LibraryManager.new lib) t w =
     (Ret tt,
      with_stdout (stdout w ++ logged lib (Remove t) ++ ["Book removed."])
        (set_contents (base lib) (pre ++ rest) w))).
Proof.
  split.
  - intros Hmiss. rewrite manager_remove_book_lines.
    now rewrite bool_decide_eq_false_2 by now apply miss_no_match.
  - intros pre b rest Hbs Hpre Hb. rewrite manager_remove_book_lines.
    rewrite bool_decide_eq_true_2.
    + now rewrite Hbs, (remove_first_hit t pre b rest Hpre Hb).
    + rewrite Hbs. apply Exists_app. right. now constructor.
Qed.



(** X3: the sorted view is stable.  Among the books it lists, those with
    the same sort key (same lower-cased title and same year) come in the
    order in which the inner library lists them. *)
Theorem sorted_view_stable
  (inner : LibraryInterface) (w : world) (k : string * Z) :
  exists it w1 it' w2,
    get_books inner w = (Ret it, w1) /\
    get_books (SortedViewLibrary inner) w = (Ret it', w2) /\
    List.filter (fun b => bool_decide (sort_key b = k)) (contents w2 it') =
    List.filter (fun b => bool_decide (sort_key b = k)) (contents w1 it).
Proof.
  destruct (get_books_chain inner w) as (it & w1 & Hget & _).
  exists it, w1. eexists _, _. split; [exact Hget|]. split.
  - cbn [get_books]. unfold bind at 1. rewrite Hget. reflexivity.
  - rewrite contents_set_eq. apply sorted_by_stable.
Qed.

(** X4: a sorted view of a sorted view lists the books exactly as one
    sorted view does. *)
Theorem sorted_view_idempotent (inner : LibraryInterface) (w : world) :
  exists it1 w1 it2 w2,
    get_books (SortedViewLibrary inner) w = (Ret it1, w1) /\
    get_books (SortedViewLibrary (SortedViewLibrary inner)) w = (Ret it2, w2) /\
    contents w2 it2 = contents w1 it1.
Proof.
  destruct (get_books_chain (SortedViewLibrary inner) w)
    as (it1 & w1 & Hget1 & _ & _ & _ & _ & _ & Hc1).
  destruct (get_books_chain (SortedViewLibrary (SortedViewLibrary inner)) w)
    as (it2 & w2 & Hget2 & _ & _ & _ & _ & _ & Hc2).
  exists it1, w1, it2, w2. split; [exact Hget1|]. split; [exact Hget2|].
  rewrite Hc1, Hc2. cbn [view]. apply sorted_by_idem.
Qed.

(** X5: when no two books share a sort key, the sorted view does not
    depend on the order of insertion: two libraries holding the same books
    in any two orders are listed identically. *)
Theorem sorted_view_canonical
  (lib1 lib2 : LibraryInterface) (w1 w2 : world) :
  Permutation (books_of lib1 w1) (books_of lib2 w2) ->
  NoDup (map sort_key (books_of lib1 w1)) ->
  exists it1 w1' it2 w2',
    get_books (SortedViewLibrary lib1) w1 = (Ret it1, w1') /\
    get_books (SortedViewLibrary lib2) w2 = (Ret it2, w2') /\
    contents w1' it1 = contents w2' it2.
Proof.
  intros Hperm Hkeys.
  destruct (get_books_chain (SortedViewLibrary lib1) w1)
    as (it1 & w1' & Hget1 & _ & _ & _ & _ & _ & Hc1).
  destruct (get_books_chain (SortedViewLibrary lib2) w2)
    as (it2 & w2' & Hget2 & _ & _ & _ & _ & _ & Hc2).
  exists it1, w1', it2, w2'. split; [exact Hget1|]. split; [exact Hget2|].
  rewrite Hc1, Hc2. cbn [view base books_of].
  apply sorted_by_canonical.
  - change (books_of (SortedViewLibrary lib1) w1) with (books_of lib1 w1).
    change (books_of (SortedViewLibrary lib2) w2) with (books_of lib2 w2).
    now rewrite !view_perm.
  - change (books_of (SortedViewLibrary lib1) w1) with (books_of lib1 w1).
    assert (Permutation (map sort_key (view lib1 (books_of lib1 w1)))
                        (map sort_key (books_of lib1 w1))) as Hm
      by apply Permutation_map, view_perm.
    rewrite Hm. exact Hkeys.
Qed.

Lemma sorted_view_canonical_witness :
  exists it1 w1' it2 w2',
    get_books (SortedViewLibrary shelf) (shelf_with [Dune; Orwell]) = (Ret it1, w1') /\
    get_books (SortedViewLibrary (LoggingLibraryDecorator shelf))
      (shelf_with [Orwell; Dune]) = (Ret it2, w2') /\
    contents w1' it1 = contents w2' it2.
Proof.
  apply (sorted_view_canonical shelf (LoggingLibraryDecorator shelf)
           (shelf_with [Dune; Orwell]) (shelf_with [Orwell; Dune])).
  - vm_compute. apply perm_swap.
  - apply (bool_decide_unpack _). vm_compute. exact I.
Defined.



(** X7: removing a title at least as many times as books match it leaves
    exactly the books that do not match, in their order. *)
Theorem repeated_remove_clears_title
  (lib : LibraryInterface) (t : string) (n : nat) (w : world) :
  base lib ∈ dom (heap w) ->
  (length (filter (matches t) (books_of lib w)) <= n)%nat ->
  books_of lib (snd (run lib (replicate n (Remove t)) w)) =
  filter (fun b => ~ matches t b) (books_of lib w).
Proof.
  intros Hbase Hn.
  destruct (run_books lib (replicate n (Remove t)) w Hbase) as (_ & -> & _).
  now apply replay_removes.
Qed.

Lemma repeated_remove_clears_title_witness :
  books_of decorated_shelf
    (snd (run decorated_shelf (replicate 3 (Remove "dune"))
            (shelf_with [Dune; Orwell; DUNE])))
  = filter (fun b => ~ matches "dune" b)
      (books_of decorated_shelf (shelf_with [Dune; Orwell; DUNE])).
Proof.
  apply (repeated_remove_clears_title decorated_shelf "dune" 3
           (shelf_with [Dune; Orwell; DUNE])).
  - vm_compute. reflexivity.
  - vm_compute. lia.
Defined.




(** X10: two libraries made by the constructor are independent.  Each
    starts empty with a list of its own, different from every list that
    existed; no sequence of calls on one changes the books of the other;
    and the lists that existed keep their content. *)
Theorem new_libraries_are_independent (w : world) :
  exists lib1 w1 lib2 w2,
    InMemoryLibrary_new w = (Ret lib1, w1) /\
    InMemoryLibrary_new w1 = (Ret lib2, w2) /\
    base lib1 ≠ base lib2 /\
    (base lib1 ∉ dom (heap w)) /\ (base lib2 ∉ dom (heap w)) /\
    books_of lib1 w2 = [] /\ books_of lib2 w2 = [] /\
    (forall it, it ∈ dom (heap w) -> contents w2 it = contents w it) /\
    (forall calls, books_of lib2 (snd (run lib1 calls w2)) = []) /\
    (forall calls, books_of lib1 (snd (run lib2 calls w2)) = []).
Proof.
  destruct (new_libraries w)
    as (l1 & w1 & l2 & w2 & H1 & H2 & Hne & Hn1 & Hn2 & Hin1 & Hin2
        & Hc1 & Hc2 & Hsub).
  exists (InMemoryLibrary l1), w1, (InMemoryLibrary l2), w2.
  repeat split; try assumption.
  - intros it Hit. now apply contents_weaken.
  - intros calls. unfold books_of. cbn [base].
    rewrite (run_frame (InMemoryLibrary l1) calls w2 l2 Hin2); [exact Hc2|].
    cbn [base]. congruence.
  - intros calls. unfold books_of. cbn [base].
    rewrite (run_frame (InMemoryLibrary l2) calls w2 l1 Hin1); [exact Hc1|].
    cbn [base]. congruence.
Qed.

(** X11: a year is accepted in the form in which it is shown.  For an
    integer [n] whose decimal numeral is within the interpreter's limit on
    digits, [_parse_year] applied to that numeral (the text [Book.__str__]
    shows for the year [n]) returns [n] when [n] is positive, and the
    manager's [add_book] then stores a book with year [n]; when [n] is not
    positive the numeral is refused with the validation error.  The state
    is not changed by [_parse_year]. *)
Theorem shown_year_parses_back
  (lib : LibraryInterface) (t a : string) (n : Z) (w : world) :
  Str.too_many_digits (max_str_digits w)
    (String.length (Str.of_int (Z.abs n))) = false ->
  (0 < n ->
   LibraryManager._parse_year (Str.of_int n) w = (Ret n, w) /\
   exists w',
     LibraryManager.add_book (LibraryManager.new lib) t a (Str.of_int n) w =
     (Ret tt, w') /\
     books_of lib w' = books_of lib w ++ [mkBook t a n]) /\
  (n <= 0 ->
   LibraryManager._parse_year (Str.of_int n) w =
   (Raise (ValueError "Year must be a positive integer."), w)).
Proof.
  intros Hlimit. pose proof (int_of_str (max_str_digits w) n Hlimit) as Hint.
  split.
  - intros Hpos. split.
    + rewrite _parse_year_cases, Hint.
      destruct (Z.leb_spec n 0); [lia | reflexivity].
    + rewrite (manager_add_book_lines lib t a (Str.of_int n) w n Hint Hpos).
      eexists. split; [reflexivity|].
      unfold books_of. rewrite contents_with_stdout. apply contents_set_eq.
  - intros Hle. rewrite _parse_year_cases, Hint.
    destruct (Z.leb_spec n 0); [reflexivity | lia].
Qed.

Lemma shown_year_parses_back_witness :
  LibraryManager._parse_year (Str.of_int 1965) (shelf_with []) =
  (Ret 1965, shelf_with []).
Proof.
  exact (proj1 (proj1 (shown_year_parses_back shelf "Dune" "Herbert" 1965
                         (shelf_with []) eq_refl) ltac:(lia))).
Defined.

(** X12: however the input goes, [main] ends in one of two ways and no
    exception of a command gets out of it.  It returns normally only after
    reading a line that, stripped and lower-cased, is "exit", leaving the
    lines after it unread; otherwise it reads the whole input and ends
    with the [EOFError] of [input].  In particular a year that is not a
    positive integer does not stop the loop. *)
Theorem main_ends_by_exit_or_end_of_input (stdin : list string) (w : world) :
  exists e rest w',
    main stdin w = (e, rest, w') /\
    (e = Exited \/ e = EndOfInput) /\
    (e = EndOfInput -> rest = []) /\
    (e = Exited ->
     exists read line, stdin = read ++ line :: rest /\ is_exit line) /\
    (Forall (fun line => ~ is_exit line) stdin -> e = EndOfInput).
Proof.
  destruct (main_ends_aux stdin w)
    as (e & rest & w' & Hmain & He & Heof & Hexit & _).
  exists e, rest, w'. repeat split; try assumption.
  intros Hnone. destruct He as [-> | ->]; [|reflexivity].
  destruct (Hexit eq_refl) as (read & line & -> & Hline).
  apply Forall_app in Hnone as [_ Hnone].
  inversion Hnone as [|? ? Hno _]. contradiction.
Qed.

(** X13: the library that [main] builds never holds a book whose year is
    not positive, whatever is typed: at the end of [main] every book in the
    list it created has a positive year. *)
Theorem main_keeps_years_positive (stdin : list string) (w : world) :
  years_positive (contents (snd (main stdin w)) (fresh (dom (heap w)))).
Proof.
  destruct (main_ends_aux stdin w) as (e & rest & w' & -> & _ & _ & _ & Hpos).
  exact Hpos.
Qed.

(** X14: how a turn of the loop answers an [add].  When the year text is
    not a positive integer the only effect is the line
    "Error: Year must be a positive integer."; when it is, the book is
    appended and the lines are the log lines of the chain followed by
    "Book added.".  In both cases the turn returns normally. *)
Theorem turn_add_reports
  (lib : LibraryInterface) (t a s : string) (w : world) :
  ((forall y, Str.int (max_str_digits w) s = Some y -> y <= 0) ->
   turn (LibraryManager.new lib) (CmdAdd t a s) w =
   (Ret tt,
    with_stdout (stdout w ++ ["Error: Year must be a positive integer."]) w)) /\
  (forall y,
     Str.int (max_str_digits w) s = Some y -> 0 < y ->
     turn (LibraryManager.new lib) (CmdAdd t a s) w =
     (Ret tt,
      with_stdout (stdout w ++ logged lib (Add (mkBook t a y)) ++ ["Book added."])
        (set_contents (base lib) (books_of lib w ++ [mkBook t a y]) w))).
Proof.
  split.
  - intros Hbad. cbn [turn]. unfold try_except_ValueError.
    now rewrite (manager_add_book_invalid lib t a s w Hbad).
  - intros y Hint Hpos. cbn [turn]. unfold try_except_ValueError.
    now rewrite (manager_add_book_lines lib t a s w y Hint Hpos).
Qed.

(** X15: a vehicle tells which factory made it and from what.  Two calls
    of [create_car], or of [create_motorcycle], give equal vehicles only
    for the same factory, the same make and the same model; a car is never
    a motorcycle; and the make is passed on unchanged. *)
Theorem factory_vehicles_tell_their_origin
  (f1 f2 : Factory.VehicleFactory) (mk1 mk2 md1 md2 : string) :
  (Factory.create_car f1 mk1 md1 = Factory.create_car f2 mk2 md2 ->
   f1 = f2 /\ mk1 = mk2 /\ md1 = md2) /\
  (Factory.create_motorcycle f1 mk1 md1 = Factory.create_motorcycle f2 mk2 md2 ->
   f1 = f2 /\ mk1 = mk2 /\ md1 = md2) /\
  Factory.create_car f1 mk1 md1 <> Factory.create_motorcycle f2 mk2 md2 /\
  Factory.make (Factory.create_car f1 mk1 md1) = mk1 /\
  Factory.make (Factory.create_motorcycle f1 mk1 md1) = mk1.
Proof.
  split; [apply create_car_inj|]. split; [apply create_motorcycle_inj|].
  split; [discriminate|]. split; reflexivity.
Qed.

(** X16: [start_engine] prints exactly one line and does nothing else, and
    the line tells the vehicle: for the same make and model, vehicles of
    the two factories print different lines, and a car never prints the
    line of a motorcycle. *)
Theorem start_engine_line_tells_the_vehicle
  (f1 f2 : Factory.VehicleFactory) (mk1 mk2 md1 md2 : string) (w : world) :
  (forall v, exists line,
     Factory.start_engine v w = (Ret tt, with_stdout (stdout w ++ [line]) w)) /\
  (Factory.start_engine (Factory.create_car f1 mk1 md1) w =
   Factory.start_engine (Factory.create_car f2 mk1 md1) w -> f1 = f2) /\
  (Factory.start_engine (Factory.create_motorcycle f1 mk1 md1) w =
   Factory.start_engine (Factory.create_motorcycle f2 mk1 md1) w -> f1 = f2) /\
  Factory.start_engine (Factory.create_car f1 mk1 md1) w <>
  Factory.start_engine (Factory.create_motorcycle f2 mk2 md2) w.
Proof.
  split; [intros v; apply start_engine_prints|].
  assert (forall l1 l2 : string, print l1 w = print l2 w -> l1 = l2) as Hline.
  { unfold print. intros l1 l2 [= Heq]. apply app_inv_head in Heq.
    now injection Heq. }
  split; [|split].
  - intros Heq. apply Hline in Heq.
    do 2 apply append_cancel_l in Heq. rewrite !append_assoc in Heq.
    do 2 apply append_cancel_l in Heq.
    destruct f1, f2; try reflexivity; vm_compute in Heq; discriminate.
  - intros Heq. apply Hline in Heq.
    do 2 apply append_cancel_l in Heq. rewrite !append_assoc in Heq.
    do 2 apply append_cancel_l in Heq.
    destruct f1, f2; try reflexivity; vm_compute in Heq; discriminate.
  - intros Heq. apply Hline in Heq.
    exact (engine_lines_differ _ _ _ _ Heq).
Qed.

(** * The rest of the program at work *)

Example main_session :
  fst (fst (main session initial_world)) = Exited /\
  snd (fst (main session initial_world)) = ["ignored"] /\
  contents (snd (main session initial_world)) 1%positive = [] /\
  stdout (snd (main session initial_world)) =
  [ "Enter command (add, remove, show, exit): ";
    "Enter book title: "; "Enter book author: "; "Enter book year: ";
    "[LOG] add: " +:+ Book_str Dune; "Book added.";
    "Enter command (add, remove, show, exit): ";
    "Enter book title: "; "Enter book author: "; "Enter book year: ";
    "Error: Year must be a positive integer.";
    "Enter command (add, remove, show, exit): ";
    Book_str Dune;
    "Enter command (add, remove, show, exit): ";
    "Invalid command. Please try again.";
    "Enter command (add, remove, show, exit): ";
    "Enter book title to remove: ";
    "[LOG] remove: " +:+ Str.dquote +:+ "DUNE" +:+ Str.dquote;
    "Book removed.";
    "Enter command (add, remove, show, exit): ";
    "No books in library.";
    "Enter command (add, remove, show, exit): " ].
Proof. repeat split; vm_compute; reflexivity. Qed.

Example main_without_exit :
  fst (main ["show"; "remove"] initial_world) = (EndOfInput, []).
Proof. vm_compute. reflexivity. Qed.

Example factory_script :
  stdout (snd (Factory.script initial_world)) =
  [ "Ford Mustang (US Spec): Двигун запущено";
    "Yamaha MT-07 (EU Spec): Мотор заведено";
    "Toyota Corolla (EU Spec): Двигун запущено" ].
Proof. vm_compute. reflexivity. Qed.

Example strip_samples :
  Str.strip " a b " = "a b"%string /\ Str.strip "   " = EmptyString /\
  Str.strip (String "028" (String "160" "x")) = "x"%string.
Proof. repeat split; reflexivity. Qed.
